(** * Izy Transcription Live: the speech-recognition hook and the history effect

    A shallow embedding of [src/hooks/useSpeechRecognition.tsx] (the
    transcription session controller) and of the history part of
    [src/App.tsx], with the properties of the written specification
    stated and proved over it.

    Modelling conventions.
    - A JavaScript string is the list of its UTF-16 code units.
    - Every callback runs to completion; its state updates are one
      function from the state to the next state.  [stateRef.current] is
      part of the state: the callbacks read it, and only the effect of
      lines 83-85 writes it, after a render.
    - The recognition engine is the object held by [recognitionRef]; the
      calls made on it are logged in the order they are made. *)

From Stdlib Require Import String Ascii List Bool Arith NArith ZArith Lia.
Import ListNotations.

(* ================================================================== *)
(** ** JavaScript strings *)
(* ================================================================== *)

Module JsString.

Local Open Scope N_scope.

(** One UTF-16 code unit. *)
Definition char16 := N.

Definition jsstring := list char16.

(** [a === b] on strings. *)
Fixpoint eqb (a b : jsstring) : bool :=
  match a, b with
  | [], [] => true
  | x :: a', y :: b' => N.eqb x y && eqb a' b'
  | _, _ => false
  end.

(** [s ? ... : ...] and [if (s)]: a string is truthy when it is not empty. *)
Definition truthy (s : jsstring) : bool :=
  match s with
  | [] => false
  | _ :: _ => true
  end.

(** ECMAScript WhiteSpace and LineTerminator code points, the ones
    [String.prototype.trim] strips. *)
Definition is_whitespace (c : char16) : bool :=
  (N.eqb c 0x09 || N.eqb c 0x0A || N.eqb c 0x0B || N.eqb c 0x0C
   || N.eqb c 0x0D || N.eqb c 0x20 || N.eqb c 0xA0 || N.eqb c 0x1680
   || (N.leb 0x2000 c && N.leb c 0x200A)
   || N.eqb c 0x2028 || N.eqb c 0x2029 || N.eqb c 0x202F
   || N.eqb c 0x205F || N.eqb c 0x3000 || N.eqb c 0xFEFF)%bool.

Fixpoint trimStart (s : jsstring) : jsstring :=
  match s with
  | [] => []
  | c :: r => if is_whitespace c then trimStart r else s
  end.

Fixpoint trimEnd (s : jsstring) : jsstring :=
  match s with
  | [] => []
  | c :: r =>
      match trimEnd r with
      | [] => if is_whitespace c then [] else [c]
      | r' => c :: r'
      end
  end.

(** [String.prototype.trim]. *)
Definition trim (s : jsstring) : jsstring := trimEnd (trimStart s).

(** [String.prototype.startsWith]. *)
Fixpoint startsWith (s p : jsstring) {struct p} : bool :=
  match p, s with
  | [], _ => true
  | _ :: _, [] => false
  | a :: p', b :: s' => N.eqb a b && startsWith s' p'
  end.

(** Whether the last code unit of [s] is white space. *)
Definition endsWithWhitespace (s : jsstring) : bool :=
  match rev s with
  | [] => false
  | c :: _ => is_whitespace c
  end.

(** *** String literals

    The source files are UTF-8; a literal denotes the UTF-16 string of
    the code points its bytes encode. *)

Definition cont (b : N) : N := N.land b 0x3F.

Fixpoint utf8_code_points (bs : list N) : list N :=
  match bs with
  | [] => []
  | b0 :: r0 =>
      if N.ltb b0 0x80 then b0 :: utf8_code_points r0
      else
        match r0 with
        | [] => [0xFFFD]
        | b1 :: r1 =>
            if N.ltb b0 0xE0 then
              N.lor (N.shiftl (N.land b0 0x1F) 6) (cont b1)
                :: utf8_code_points r1
            else
              match r1 with
              | [] => [0xFFFD]
              | b2 :: r2 =>
                  if N.ltb b0 0xF0 then
                    N.lor (N.shiftl (N.land b0 0x0F) 12)
                      (N.lor (N.shiftl (cont b1) 6) (cont b2))
                      :: utf8_code_points r2
                  else
                    match r2 with
                    | [] => [0xFFFD]
                    | b3 :: r3 =>
                        N.lor (N.shiftl (N.land b0 0x07) 18)
                          (N.lor (N.shiftl (cont b1) 12)
                             (N.lor (N.shiftl (cont b2) 6) (cont b3)))
                          :: utf8_code_points r3
                    end
              end
        end
  end.

Definition utf16_units (cp : N) : list char16 :=
  if N.ltb cp 0x10000 then [cp]
  else
    let v := N.sub cp 0x10000 in
    [N.add 0xD800 (N.shiftr v 10); N.add 0xDC00 (N.land v 0x3FF)].

Definition lit (s : string) : jsstring :=
  flat_map utf16_units
    (utf8_code_points (map (fun a => N_of_ascii a) (list_ascii_of_string s))).

End JsString.

Import JsString.

Arguments lit s%_string.

(** The literals of the source, as the strings they denote. *)
Module Literal.
Definition space : jsstring := Eval vm_compute in lit " ".
Definition pt_BR : jsstring := Eval vm_compute in lit "pt-BR".
Definition aborted : jsstring := Eval vm_compute in lit "aborted".
Definition unexpected : jsstring :=
  Eval vm_compute in lit "Um erro inesperado ocorreu: ".
End Literal.

(* ================================================================== *)
(** ** The hook [useSpeechRecognition] *)
(* ================================================================== *)

Module Hook.

(** *** The Web Speech API objects the hook talks to *)

Record SpeechRecognitionAlternative := { transcript : jsstring }.

(** A result slot: [item0] is [result[0]], the alternative the hook
    reads; [items] are the remaining alternatives. *)
Record SpeechRecognitionResult := {
  isFinal : bool;
  item0 : SpeechRecognitionAlternative;
  items : list SpeechRecognitionAlternative
}.

Record SpeechRecognitionEvent := {
  resultIndex : nat;
  results : list SpeechRecognitionResult
}.

Record SpeechRecognitionErrorEvent := { errorCode : jsstring }.

Inductive EngineCall := CallStart | CallStop.

(** The [SpeechRecognition] object: its configuration and the calls
    received so far, oldest first. *)
Record SpeechRecognition := {
  continuous : bool;
  interimResults : bool;
  lang : jsstring;
  calls : list EngineCall
}.

Inductive StopReason := user | paused | auto.

Definition StopReason_eqb (a b : StopReason) : bool :=
  match a, b with
  | user, user | paused, paused | auto, auto => true
  | _, _ => false
  end.

(** [stateRef.current]: the copy of four of the state cells that the
    callbacks read.  It is written by the effect of lines 83-85 only, so
    it is as old as the last render whose effects have run. *)
Record Snapshot := {
  isListeningNow : bool;
  isPausedNow : bool;
  liveTranscriptNow : jsstring;
  finalTranscriptNow : jsstring
}.

(** What [setError] is handed: a message, or the member of
    [Object.prototype] that [errorMessages[code]] finds when [code] is
    the name of one (a function, or for "__proto__" the prototype
    itself).  What React makes of such a member is not modelled. *)
Inductive ErrorValue :=
| Message (m : jsstring)
| InheritedMember (name : jsstring).

(** *** The state of the hook: the six [useState] cells and the refs.
    [error] is what [setError] was last handed; [speakingTimeoutRef]
    records whether the 500 ms timer is armed. *)
Record State := {
  isListening : bool;
  isPaused : bool;
  isSpeaking : bool;
  liveTranscript : jsstring;
  finalTranscript : jsstring;
  error : option ErrorValue;
  recognitionRef : option SpeechRecognition;
  stopReasonRef : StopReason;
  speakingTimeoutRef : bool;
  stateRef : Snapshot
}.

Definition setIsListening (v : bool) (s : State) : State :=
  {| isListening := v; isPaused := isPaused s; isSpeaking := isSpeaking s;
     liveTranscript := liveTranscript s; finalTranscript := finalTranscript s;
     error := error s; recognitionRef := recognitionRef s;
     stopReasonRef := stopReasonRef s;
     speakingTimeoutRef := speakingTimeoutRef s; stateRef := stateRef s |}.

Definition setIsPaused (v : bool) (s : State) : State :=
  {| isListening := isListening s; isPaused := v; isSpeaking := isSpeaking s;
     liveTranscript := liveTranscript s; finalTranscript := finalTranscript s;
     error := error s; recognitionRef := recognitionRef s;
     stopReasonRef := stopReasonRef s;
     speakingTimeoutRef := speakingTimeoutRef s; stateRef := stateRef s |}.

Definition setIsSpeaking (v : bool) (s : State) : State :=
  {| isListening := isListening s; isPaused := isPaused s; isSpeaking := v;
     liveTranscript := liveTranscript s; finalTranscript := finalTranscript s;
     error := error s; recognitionRef := recognitionRef s;
     stopReasonRef := stopReasonRef s;
     speakingTimeoutRef := speakingTimeoutRef s; stateRef := stateRef s |}.

Definition setLiveTranscript (v : jsstring) (s : State) : State :=
  {| isListening := isListening s; isPaused := isPaused s;
     isSpeaking := isSpeaking s;
     liveTranscript := v; finalTranscript := finalTranscript s;
     error := error s; recognitionRef := recognitionRef s;
     stopReasonRef := stopReasonRef s;
     speakingTimeoutRef := speakingTimeoutRef s; stateRef := stateRef s |}.

Definition setFinalTranscript (v : jsstring) (s : State) : State :=
  {| isListening := isListening s; isPaused := isPaused s;
     isSpeaking := isSpeaking s;
     liveTranscript := liveTranscript s; finalTranscript := v;
     error := error s; recognitionRef := recognitionRef s;
     stopReasonRef := stopReasonRef s;
     speakingTimeoutRef := speakingTimeoutRef s; stateRef := stateRef s |}.

Definition setError (v : option ErrorValue) (s : State) : State :=
  {| isListening := isListening s; isPaused := isPaused s;
     isSpeaking := isSpeaking s;
     liveTranscript := liveTranscript s; finalTranscript := finalTranscript s;
     error := v; recognitionRef := recognitionRef s;
     stopReasonRef := stopReasonRef s;
     speakingTimeoutRef := speakingTimeoutRef s; stateRef := stateRef s |}.

Definition setRecognition (v : option SpeechRecognition) (s : State) : State :=
  {| isListening := isListening s; isPaused := isPaused s;
     isSpeaking := isSpeaking s;
     liveTranscript := liveTranscript s; finalTranscript := finalTranscript s;
     error := error s; recognitionRef := v;
     stopReasonRef := stopReasonRef s;
     speakingTimeoutRef := speakingTimeoutRef s; stateRef := stateRef s |}.

Definition setStopReason (v : StopReason) (s : State) : State :=
  {| isListening := isListening s; isPaused := isPaused s;
     isSpeaking := isSpeaking s;
     liveTranscript := liveTranscript s; finalTranscript := finalTranscript s;
     error := error s; recognitionRef := recognitionRef s;
     stopReasonRef := v;
     speakingTimeoutRef := speakingTimeoutRef s; stateRef := stateRef s |}.

Definition setSpeakingTimeout (v : bool) (s : State) : State :=
  {| isListening := isListening s; isPaused := isPaused s;
     isSpeaking := isSpeaking s;
     liveTranscript := liveTranscript s; finalTranscript := finalTranscript s;
     error := error s; recognitionRef := recognitionRef s;
     stopReasonRef := stopReasonRef s;
     speakingTimeoutRef := v; stateRef := stateRef s |}.

Definition setStateRef (v : Snapshot) (s : State) : State :=
  {| isListening := isListening s; isPaused := isPaused s;
     isSpeaking := isSpeaking s;
     liveTranscript := liveTranscript s; finalTranscript := finalTranscript s;
     error := error s; recognitionRef := recognitionRef s;
     stopReasonRef := stopReasonRef s;
     speakingTimeoutRef := speakingTimeoutRef s; stateRef := v |}.

(** The effect of lines 83-85, run after a render: [stateRef.current]
    becomes a copy of the state cells. *)
Definition refresh (s : State) : State :=
  setStateRef
    {| isListeningNow := isListening s; isPausedNow := isPaused s;
       liveTranscriptNow := liveTranscript s;
       finalTranscriptNow := finalTranscript s |} s.

(** [recognitionRef.current?.start()], [?.stop()] and the write of
    [.lang]: nothing happens when the ref is null. *)
Definition call (c : EngineCall) (r : SpeechRecognition) : SpeechRecognition :=
  {| continuous := continuous r; interimResults := interimResults r;
     lang := lang r; calls := calls r ++ [c] |}.

Definition setLang (l : jsstring) (r : SpeechRecognition) : SpeechRecognition :=
  {| continuous := continuous r; interimResults := interimResults r;
     lang := l; calls := calls r |}.

Definition engineStart (s : State) : State :=
  setRecognition (option_map (call CallStart) (recognitionRef s)) s.

Definition engineStop (s : State) : State :=
  setRecognition (option_map (call CallStop) (recognitionRef s)) s.

Definition engineSetLang (l : jsstring) (s : State) : State :=
  setRecognition (option_map (setLang l) (recognitionRef s)) s.

(** The state after the mount effects; [supported] says whether the
    browser provides [SpeechRecognition]. *)
Definition mount (supported : bool) : State :=
  {| isListening := false; isPaused := false; isSpeaking := false;
     liveTranscript := []; finalTranscript := [];
     error := None;
     recognitionRef :=
       if supported then
         Some {| continuous := true; interimResults := true;
                 lang := Literal.pt_BR; calls := [] |}
       else None;
     stopReasonRef := auto;
     speakingTimeoutRef := false;
     stateRef :=
       {| isListeningNow := false; isPausedNow := false;
          liveTranscriptNow := []; finalTranscriptNow := [] |} |}.

(** *** [processResults] *)

(** The [for] loop from index [i], with [n] iterations left;
    it carries [final] and [interim]. *)
Fixpoint resultsLoop (rs : list SpeechRecognitionResult) (n i : nat)
    (final interim : jsstring) : jsstring * jsstring :=
  match n with
  | O => (final, interim)
  | S n' =>
      match nth_error rs i with
      | None => (final, interim)
      | Some r =>
          let t := transcript (item0 r) in
          if isFinal r then resultsLoop rs n' (S i) (final ++ t) interim
          else resultsLoop rs n' (S i) final (interim ++ t)
      end
  end.

(** [final] starts from [stateRef.current.finalTranscript], not from the
    state cell. *)
Definition processResults (event : SpeechRecognitionEvent) (s : State) : State :=
  let s1 := setSpeakingTimeout true (setIsSpeaking true s) in
  let '(final, interim) :=
    resultsLoop (results event)
      (length (results event) - resultIndex event) (resultIndex event)
      (finalTranscriptNow (stateRef s)) [] in
  setLiveTranscript (final ++ interim) (setFinalTranscript final s1).

(** The merge as the specification words it: the texts of the final
    slots from [resultIndex] on, and those of the other slots. *)
Definition slotText (r : SpeechRecognitionResult) : jsstring :=
  transcript (item0 r).

Definition finalDelta (event : SpeechRecognitionEvent) : jsstring :=
  concat (map slotText
            (filter isFinal (skipn (resultIndex event) (results event)))).

Definition interimText (event : SpeechRecognitionEvent) : jsstring :=
  concat (map slotText
            (filter (fun r => negb (isFinal r))
               (skipn (resultIndex event) (results event)))).

(** Everything the batch says, final or not. *)
Definition spoken (event : SpeechRecognitionEvent) : jsstring :=
  finalDelta event ++ interimText event.

(** The 500 ms timer armed by [processResults] fires. *)
Definition speakingTimeout (s : State) : State :=
  if speakingTimeoutRef s
  then setSpeakingTimeout false (setIsSpeaking false s)
  else s.

(** *** [handleEnd]: [stopReasonRef] is read as it is, the flags and
    [liveTranscript] from [stateRef.current]. *)
Definition handleEnd (s : State) : State :=
  let s1 := setSpeakingTimeout false (setIsSpeaking false s) in
  if StopReason_eqb (stopReasonRef s) auto && isListeningNow (stateRef s)
     && negb (isPausedNow (stateRef s))
  then engineStart s1
  else
    let finalVersion := trim (liveTranscriptNow (stateRef s)) in
    setLiveTranscript finalVersion (setFinalTranscript finalVersion s1).

(** *** [recognition.onerror] *)

(** The own properties of the [errorMessages] object literal. *)
Definition errorMessages : list (jsstring * jsstring) :=
  Eval vm_compute in
  [ (lit "no-speech",
     lit "Nenhum som foi detectado. Verifique se seu microfone está funcionando.");
    (lit "audio-capture",
     lit "Falha ao capturar áudio. O microfone está sendo usado por outro aplicativo?");
    (lit "not-allowed",
     lit "Permissão para usar o microfone foi negada ou bloqueada.");
    (lit "network",
     lit "Ocorreu um erro de rede. Verifique sua conexão com a internet.") ].

(** The properties an object literal inherits from [Object.prototype];
    [errorMessages[name]] finds each of them, and each is truthy. *)
Definition ObjectPrototype : list jsstring :=
  Eval vm_compute in
  [ lit "constructor"; lit "hasOwnProperty"; lit "isPrototypeOf";
    lit "propertyIsEnumerable"; lit "toLocaleString"; lit "toString";
    lit "valueOf"; lit "__proto__"; lit "__defineGetter__";
    lit "__defineSetter__"; lit "__lookupGetter__"; lit "__lookupSetter__" ].

Definition inherited (name : jsstring) : bool :=
  existsb (JsString.eqb name) ObjectPrototype.

Fixpoint lookup (k : jsstring) (o : list (jsstring * jsstring)) : option jsstring :=
  match o with
  | [] => None
  | (k', v) :: o' => if JsString.eqb k' k then Some v else lookup k o'
  end.

(** [errorMessages[code] || `Um erro inesperado ocorreu: ${code}`]:
    own properties first, then the inherited ones; the template is used
    when nothing is found (or an empty string is). *)
Definition errorMessage (code : jsstring) : ErrorValue :=
  match lookup code errorMessages with
  | Some m =>
      if truthy m then Message m else Message (Literal.unexpected ++ code)
  | None =>
      if inherited code then InheritedMember code
      else Message (Literal.unexpected ++ code)
  end.

Definition onerror (event : SpeechRecognitionErrorEvent) (s : State) : State :=
  if JsString.eqb (errorCode event) Literal.aborted then s
  else
    setIsSpeaking false
      (setIsPaused false
         (setIsListening false
            (setStopReason user
               (setError (Some (errorMessage (errorCode event))) s)))).

(** *** The operations returned to the caller *)

Definition startListening (l : jsstring) (s : State) : State :=
  engineStart
    (setStopReason auto
       (setIsPaused false
          (setIsListening true
             (setFinalTranscript []
                (setLiveTranscript []
                   (setError None (engineSetLang l s))))))).

Definition stopListening (s : State) : State :=
  engineStop (setIsPaused false (setIsListening false (setStopReason user s))).

Definition pauseListening (s : State) : State :=
  engineStop (setIsPaused true (setStopReason paused s)).

Definition resumeListening (s : State) : State :=
  let trimmedFinal := trim (liveTranscriptNow (stateRef s)) in
  let s1 :=
    if truthy trimmedFinal
    then setLiveTranscript (trimmedFinal ++ Literal.space)
           (setFinalTranscript (trimmedFinal ++ Literal.space) s)
    else s in
  engineStart (setIsPaused false (setStopReason auto s1)).

(** *** Everything that can happen to the hook

    The four operations are called from the click handlers of [App]
    ([handleStartStop], [handlePauseResume]).  React renders the updates
    of a click and runs the effects of that render before the click is
    over; a click is taken to find the updates of earlier callbacks
    rendered, so [stateRef.current] is up to date after it.  The updates
    of a callback of the engine or of the timer are rendered later:
    [Refresh] is the moment the effect of lines 83-85 runs for them, and
    further callbacks may come before it. *)
Inductive Event :=
| Start (l : jsstring)
| Stop
| Pause
| Resume
| OnResult (e : SpeechRecognitionEvent)
| OnEnd
| OnError (e : SpeechRecognitionErrorEvent)
| SpeakingTimeout
| Refresh.

Definition step (s : State) (e : Event) : State :=
  match e with
  | Start l => refresh (startListening l s)
  | Stop => refresh (stopListening s)
  | Pause => refresh (pauseListening s)
  | Resume => refresh (resumeListening s)
  | OnResult ev => processResults ev s
  | OnEnd => handleEnd s
  | OnError ev => onerror ev s
  | SpeakingTimeout => speakingTimeout s
  | Refresh => refresh s
  end.

Definition run (s : State) (es : list Event) : State := fold_left step es s.

(** The states the hook can be in: those some sequence of events leads
    to from the mounted hook. *)
Definition reachable (s : State) : Prop :=
  exists supported es, s = run (mount supported) es.

(** [isSupported: !!SpeechRecognition]: the mount effect created the
    engine. *)
Definition isSupported (s : State) : bool :=
  match recognitionRef s with
  | Some _ => true
  | None => false
  end.

(** The test of [handleEnd]: whether a termination restarts the engine. *)
Definition restarts (s : State) : bool :=
  StopReason_eqb (stopReasonRef s) auto && isListeningNow (stateRef s)
  && negb (isPausedNow (stateRef s)).

(** [stateRef.current] is up to date: the effect has run since the last
    change of the four cells. *)
Definition fresh (s : State) : Prop :=
  stateRef s =
  {| isListeningNow := isListening s; isPausedNow := isPaused s;
     liveTranscriptNow := liveTranscript s;
     finalTranscriptNow := finalTranscript s |}.

(** What the hook returns to its caller, the engine and the refs apart. *)
Definition observable (s : State)
  : bool * bool * bool * jsstring * jsstring * option ErrorValue :=
  (isListening s, isPaused s, isSpeaking s,
   liveTranscript s, finalTranscript s, error s).

(** While [stopReason] is [auto] the flags in [stateRef.current] are
    those of the state: a callback that writes the flags (an error) sets
    [stopReason] to [user]. *)
Definition flagsFreshWhileAuto (s : State) : Prop :=
  stopReasonRef s = auto ->
  isListeningNow (stateRef s) = isListening s /\
  isPausedNow (stateRef s) = isPaused s.

(** [liveTranscript] starts with [finalTranscript]. *)
Definition livePrefix (s : State) : Prop :=
  startsWith (liveTranscript s) (finalTranscript s) = true.

(** A final or an interim slot carrying text [t]. *)
Definition slot (final : bool) (t : jsstring) : SpeechRecognitionResult :=
  {| isFinal := final; item0 := {| transcript := t |}; items := [] |}.

End Hook.

Import Hook.

(* ================================================================== *)
(** ** The component [App]: history of finished transcriptions *)
(* ================================================================== *)

Module App.

(** [Transcript] of [components/HistoryModal.tsx]. *)
Record Transcript := {
  id : Z;
  date : jsstring;
  content : jsstring
}.

(** What the effect reads from the environment when it builds an
    entry: [Date.now()] and [new Date().toLocaleString('pt-BR')]. *)
Record Clock := {
  now : Z;
  localeString : jsstring
}.

(** The dependency array [[isListening, finalTranscript, history]] as
    React compares it: the two primitives by value, the array by
    identity ([historyRef] below). *)
Definition Deps : Type := bool * jsstring * nat.

Definition Deps_eqb (a b : Deps) : bool :=
  let '(l1, f1, h1) := a in
  let '(l2, f2, h2) := b in
  Bool.eqb l1 l2 && JsString.eqb f1 f2 && Nat.eqb h1 h2.

(** The state of [App].  [historyRef] stands for the identity of the
    array in [history]: every [setHistory] installs a new array.
    [transcriptHistory] is the [localStorage] item of that name and
    [effectDeps] the dependencies the history effect last ran with. *)
Record State := {
  speech : Hook.State;
  finalContent : jsstring;
  selectedLang : jsstring;
  history : list Transcript;
  historyRef : nat;
  isHistoryVisible : bool;
  transcriptHistory : option (list Transcript);
  effectDeps : Deps
}.

Definition deps (a : State) : Deps :=
  (isListening (speech a), finalTranscript (speech a), historyRef a).

Definition setSpeech (v : Hook.State) (a : State) : State :=
  {| speech := v; finalContent := finalContent a;
     selectedLang := selectedLang a; history := history a;
     historyRef := historyRef a; isHistoryVisible := isHistoryVisible a;
     transcriptHistory := transcriptHistory a; effectDeps := effectDeps a |}.

Definition setFinalContent (v : jsstring) (a : State) : State :=
  {| speech := speech a; finalContent := v;
     selectedLang := selectedLang a; history := history a;
     historyRef := historyRef a; isHistoryVisible := isHistoryVisible a;
     transcriptHistory := transcriptHistory a; effectDeps := effectDeps a |}.

Definition setSelectedLang (v : jsstring) (a : State) : State :=
  {| speech := speech a; finalContent := finalContent a;
     selectedLang := v; history := history a;
     historyRef := historyRef a; isHistoryVisible := isHistoryVisible a;
     transcriptHistory := transcriptHistory a; effectDeps := effectDeps a |}.

Definition setHistory (v : list Transcript) (a : State) : State :=
  {| speech := speech a; finalContent := finalContent a;
     selectedLang := selectedLang a; history := v;
     historyRef := S (historyRef a); isHistoryVisible := isHistoryVisible a;
     transcriptHistory := transcriptHistory a; effectDeps := effectDeps a |}.

Definition setIsHistoryVisible (v : bool) (a : State) : State :=
  {| speech := speech a; finalContent := finalContent a;
     selectedLang := selectedLang a; history := history a;
     historyRef := historyRef a; isHistoryVisible := v;
     transcriptHistory := transcriptHistory a; effectDeps := effectDeps a |}.

Definition setStored (v : option (list Transcript)) (a : State) : State :=
  {| speech := speech a; finalContent := finalContent a;
     selectedLang := selectedLang a; history := history a;
     historyRef := historyRef a; isHistoryVisible := isHistoryVisible a;
     transcriptHistory := v; effectDeps := effectDeps a |}.

Definition setEffectDeps (v : Deps) (a : State) : State :=
  {| speech := speech a; finalContent := finalContent a;
     selectedLang := selectedLang a; history := history a;
     historyRef := historyRef a; isHistoryVisible := isHistoryVisible a;
     transcriptHistory := transcriptHistory a; effectDeps := v |}.

(** *** The effect "update finalContent and save to history" *)

(** [history.some(item => item.content.trim() === trimmedContent)] *)
Definition isAlreadySaved (trimmedContent : jsstring)
    (h : list Transcript) : bool :=
  existsb (fun item => JsString.eqb (trim (content item)) trimmedContent) h.

(** The trimmed content of an entry, and the number of entries of [h]
    whose trimmed content is [trimmedContent]. *)
Definition trimmedContentOf (item : Transcript) : jsstring :=
  trim (content item).

Definition countSaved (trimmedContent : jsstring)
    (h : list Transcript) : nat :=
  length
    (filter (fun item => JsString.eqb (trim (content item)) trimmedContent) h).

(** What the body of the effect makes of the history it is given, as a
    function of the three values it closes over. *)
Definition saveToHistory (clk : Clock) (listening : bool)
    (finalTranscript : jsstring) (h : list Transcript) : list Transcript :=
  if negb listening && truthy finalTranscript then
    let trimmedContent := trim finalTranscript in
    if (0 <? length trimmedContent) && negb (isAlreadySaved trimmedContent h)
    then
      let newTranscript :=
        {| id := now clk; date := localeString clk;
           content := trimmedContent |} in
      newTranscript :: h
    else h
  else h.

Definition historyEffect (clk : Clock) (a : State) : State :=
  if negb (isListening (speech a)) && truthy (finalTranscript (speech a))
  then
    let a1 := setFinalContent (finalTranscript (speech a)) a in
    let trimmedContent := trim (finalTranscript (speech a)) in
    if (0 <? length trimmedContent)
       && negb (isAlreadySaved trimmedContent (history a))
    then
      let newTranscript :=
        {| id := now clk; date := localeString clk;
           content := trimmedContent |} in
      let updatedHistory := newTranscript :: history a1 in
      setHistory updatedHistory (setStored (Some updatedHistory) a1)
    else a1
  else a.

(** After a render React runs the effect when a dependency differs from
    the ones of its last run; a [setHistory] made by the effect causes a
    further render.  [fuel] bounds the number of renders. *)
Fixpoint flushEffects (fuel : nat) (clk : Clock) (a : State) : State :=
  match fuel with
  | O => a
  | S fuel' =>
      if Deps_eqb (effectDeps a) (deps a) then a
      else flushEffects fuel' clk (historyEffect clk (setEffectDeps (deps a) a))
  end.

(** One run of the effect from a fresh render. *)
Definition render (clk : Clock) (a : State) : State :=
  historyEffect clk (setEffectDeps (deps a) a).

(** The effect is at rest: the dependencies are those of its last run. *)
Definition atRest (a : State) : Prop := effectDeps a = deps a.

(** Whether the effect adds an entry. *)
Definition saves (listening : bool) (c : jsstring) (h : list Transcript) : bool :=
  negb listening && truthy c && truthy (trim c)
  && negb (isAlreadySaved (trim c) h).

(** Two renders always reach a state where the effect is at rest
    (lemma [flushEffects_enough] below). *)
Definition commit (clk : Clock) (a : State) : State := flushEffects 2 clk a.

(** *** Handlers *)

Definition handleStartStop (a : State) : State :=
  if isListening (speech a) then setSpeech (stopListening (speech a)) a
  else
    setSpeech (startListening (selectedLang a) (speech a))
      (setFinalContent [] a).

Definition handlePauseResume (a : State) : State :=
  if isPaused (speech a) then setSpeech (resumeListening (speech a)) a
  else setSpeech (pauseListening (speech a)) a.

Definition handleDeleteTranscript (i : Z) (a : State) : State :=
  let updatedHistory :=
    filter (fun item => negb (Z.eqb (id item) i)) (history a) in
  setHistory updatedHistory (setStored (Some updatedHistory) a).

Definition handleClearHistory (a : State) : State :=
  setStored None (setHistory [] a).

Definition handleViewHistoryItem (item : Transcript) (a : State) : State :=
  setIsHistoryVisible false (setFinalContent (content item) a).

(** *** What the user and the engine can do *)
Inductive Event :=
| ClickStartStop
| ClickPauseResume
| SelectLang (l : jsstring)
| EditFinalContent (v : jsstring)
| OpenHistory
| CloseHistory
| ViewHistoryItem (item : Transcript)
| DeleteTranscript (i : Z)
| ClearHistory
| EngineResult (e : SpeechRecognitionEvent)
| EngineEnd
| EngineError (e : SpeechRecognitionErrorEvent)
| SpeakingTimer.

(** What a control does when used.  [App] shows the pause button only
    while listening, disables the language list and the history button
    while listening, and shows the history entries only in the dialog. *)
Definition userAction (e : Event) (a : State) : State :=
  match e with
  | ClickStartStop => handleStartStop a
  | ClickPauseResume =>
      if isListening (speech a) then handlePauseResume a else a
  | SelectLang l =>
      if isListening (speech a) then a else setSelectedLang l a
  | EditFinalContent v => setFinalContent v a
  | OpenHistory =>
      if isListening (speech a) then a else setIsHistoryVisible true a
  | CloseHistory => setIsHistoryVisible false a
  | ViewHistoryItem item =>
      if isHistoryVisible a then handleViewHistoryItem item a else a
  | DeleteTranscript i =>
      if isHistoryVisible a then handleDeleteTranscript i a else a
  | ClearHistory =>
      if isHistoryVisible a then handleClearHistory a else a
  | EngineResult _ | EngineEnd | EngineError _ | SpeakingTimer => a
  end.

(** The callbacks of the engine and of the timer go to the hook; the
    controls exist only when [isSupported]. *)
Definition handle (e : Event) (a : State) : State :=
  match e with
  | EngineResult ev => setSpeech (processResults ev (speech a)) a
  | EngineEnd => setSpeech (handleEnd (speech a)) a
  | EngineError ev => setSpeech (onerror ev (speech a)) a
  | SpeakingTimer => setSpeech (speakingTimeout (speech a)) a
  | _ => if isSupported (speech a) then userAction e a else a
  end.

(** The effect of the hook (lines 83-85 of the hook) on the state of
    [App]. *)
Definition refreshed (a : State) : State := setSpeech (refresh (speech a)) a.

(** One event: the handler, then the renders and the effects they
    cause, the one of the hook and the history effect: the course of
    events in which the effects of one event have run when the next
    comes.  [Hook.step] has the others. *)
Definition step (a : State) (ev : Clock * Event) : State :=
  commit (fst ev) (refreshed (handle (snd ev) a)).

Definition run (a : State) (evs : list (Clock * Event)) : State :=
  fold_left step evs a.

(** [App] once mounted, with what [localStorage] held: the history
    list, which [JSON.parse] read, and the auto-saved document.
    [Autosave.mount] below has the load in which [JSON.parse] throws. *)
Definition mount (supported : bool) (savedHistory : option (list Transcript))
    (autoSavedContent : option jsstring) : State :=
  let a :=
    {| speech := Hook.mount supported;
       finalContent :=
         match autoSavedContent with
         | Some c => if truthy c then c else []
         | None => []
         end;
       selectedLang := Literal.pt_BR;
       history := match savedHistory with Some h => h | None => [] end;
       historyRef := match savedHistory with Some _ => 1 | None => 0 end;
       isHistoryVisible := false;
       transcriptHistory := savedHistory;
       effectDeps := (false, [], 0) |} in
  setEffectDeps (deps a) a.

Definition reachable (a : State) : Prop :=
  exists supported saved auto evs, a = run (mount supported saved auto) evs.

End App.


(* ================================================================== *)
(** ** The sessions of the scenarios *)
(* ================================================================== *)

Module Scenario.

Definition en_US : jsstring := Eval vm_compute in lit "en-US".
Definition hello : jsstring := Eval vm_compute in lit "hello".
Definition test : jsstring := Eval vm_compute in lit "test".

(** The hook after [start("en-US")] and one final slot "hello" at
    index 0. *)
Definition heard : Hook.State :=
  Hook.run (Hook.mount true)
    [ Start en_US;
      OnResult {| resultIndex := 0; results := [slot true hello] |} ].

Definition date1 : jsstring := Eval vm_compute in lit "03/11/2026, 10:00:00".
Definition date2 : jsstring := Eval vm_compute in lit "03/11/2026, 10:05:00".

Definition now1 : Z := 1762164000000%Z.
Definition now2 : Z := 1762164300000%Z.

Definition clock1 : App.Clock :=
  {| App.now := now1; App.localeString := date1 |}.
Definition clock2 : App.Clock :=
  {| App.now := now2; App.localeString := date2 |}.

(** One recording in [App]: start, a final slot "test" at index 0, stop,
    the termination, and the history dialog opened. *)
Definition recorded : App.State :=
  App.run (App.mount true None None)
    [ (clock1, App.ClickStartStop);
      (clock1, App.EngineResult
                 {| resultIndex := 0; results := [slot true test] |});
      (clock1, App.ClickStartStop);
      (clock1, App.EngineEnd);
      (clock1, App.OpenHistory) ].

End Scenario.

(* ================================================================== *)
(** ** Further notions about the hook and the history *)
(* ================================================================== *)

(** The part of the hook's state that says where the session stands;
    the speaking indicator, its timer and the engine are left out. *)
Definition session (s : Hook.State)
  : bool * bool * jsstring * jsstring * option ErrorValue * StopReason :=
  (isListening s, isPaused s, liveTranscript s, finalTranscript s,
   error s, stopReasonRef s).

(** The events the hook does not choose: callbacks of the engine and the
    expiry of the timer. *)
Definition callbackEvent (e : Hook.Event) : bool :=
  match e with
  | OnResult _ | OnEnd | OnError _ | SpeakingTimeout => true
  | _ => false
  end.

(** A callback or the refresh of [stateRef.current]: what happens to
    the hook without a call from [App]. *)
Definition unasked (e : Hook.Event) : bool :=
  match e with
  | Refresh => true
  | _ => callbackEvent e
  end.

(** The batches [evs], each delivered after [stateRef.current] has been
    refreshed. *)
Definition eachRefreshed (evs : list SpeechRecognitionEvent)
  : list Hook.Event :=
  flat_map (fun ev => [Refresh; OnResult ev]) evs.

(** The language of the latest [Start] of a sequence of events, and the
    default of the mount effect when there is none. *)
Definition lastLang (es : list Hook.Event) : jsstring :=
  fold_left (fun l e => match e with Start l' => l' | _ => l end)
    es Literal.pt_BR.

(** The engine, when there is one, is continuous, reports interim
    results and has language [l]. *)
Definition engineConfigured (l : jsstring) (s : Hook.State) : Prop :=
  match recognitionRef s with
  | Some r => continuous r = true /\ interimResults r = true /\ lang r = l
  | None => True
  end.

(** How the flags, [stopReason] and the error go together: paused
    exactly when [stopReason] is [paused]; not listening when it is
    [user]; no error while listening. *)
Definition flagsConsistent (s : Hook.State) : Prop :=
  isPaused s = StopReason_eqb (stopReasonRef s) paused /\
  StopReason_eqb (stopReasonRef s) user && isListening s = false /\
  isListening s && match error s with Some _ => true | None => false end = false.


(** The entry the history effect builds from [finalTranscript]. *)
Definition newTranscript (clk : App.Clock) (finalTranscript : jsstring)
  : App.Transcript :=
  {| App.id := App.now clk; App.date := App.localeString clk;
     App.content := trim finalTranscript |}.

(** The state of [App] without the bookkeeping of the effect. *)
Definition exceptDeps (a : App.State) :=
  (App.speech a, App.finalContent a, App.selectedLang a, App.history a,
   App.historyRef a, App.isHistoryVisible a, App.transcriptHistory a).

(** The language of the engine, when there is one. *)
Definition engineLang (s : Hook.State) : option jsstring :=
  option_map lang (recognitionRef s).

(** The history the next visit would load from [localStorage]. *)
Definition storedHistory (a : App.State) : list App.Transcript :=
  match App.transcriptHistory a with
  | Some h => h
  | None => []
  end.

(* ================================================================== *)
(** ** The component [App]: auto-save of the document *)
(* ================================================================== *)

(** The two effects of [App] that keep [finalContent] in [localStorage]:
    the load on mount and the debounced save.  [handler] is the pending
    timeout, with the [finalContent] its closure captured;
    [autoSavedTranscript] is the [localStorage] item of that name. *)
Module Autosave.

Record State := {
  finalContent : jsstring;
  handler : option jsstring;
  autoSavedTranscript : option jsstring
}.

(** After the mount: the load effect has put the stored text, if there
    is one and it is not empty, in [finalContent], and the save effect has
    run for the render that shows it.  The load effect reads the history
    item first, in the same [try] block: when [JSON.parse] throws on it
    ([parseThrows]) the stored text is not read. *)
Definition mount (parseThrows : bool) (stored : option jsstring) : State :=
  let loaded :=
    if parseThrows then []
    else
      match stored with
      | Some c => if truthy c then c else []
      | None => []
      end in
  {| finalContent := loaded; handler := Some loaded;
     autoSavedTranscript := stored |}.

(** A render in which [finalContent] is [v].  The effect depends on
    [finalContent] alone: when it changed, the cleanup clears the pending
    timeout and a new one is set. *)
Definition render (v : jsstring) (s : State) : State :=
  if JsString.eqb v (finalContent s) then s
  else {| finalContent := v; handler := Some v;
          autoSavedTranscript := autoSavedTranscript s |}.

(** The 500 ms timeout expires. *)
Definition timeout (s : State) : State :=
  match handler s with
  | Some v =>
      {| finalContent := finalContent s; handler := None;
         autoSavedTranscript := if truthy v then Some v else None |}
  | None => s
  end.

Inductive Event :=
| Render (v : jsstring)
| Timeout.

Definition step (s : State) (e : Event) : State :=
  match e with
  | Render v => render v s
  | Timeout => timeout s
  end.

Definition run (s : State) (es : list Event) : State := fold_left step es s.

End Autosave.

(** What the expired timeout leaves in [localStorage] for a document. *)
Definition persisted (v : jsstring) : option jsstring :=
  if truthy v then Some v else None.

(** A pending timeout holds the document as it is now; without one the
    store is up to date. *)
Definition autosaveSettled (p : Autosave.State) : Prop :=
  match Autosave.handler p with
  | Some v => v = Autosave.finalContent p
  | None => Autosave.autoSavedTranscript p = persisted (Autosave.finalContent p)
  end.

(** Two batches of one engine session: a final "hello" in slot 0, then
    a final "test" in slot 1. *)
Definition firstBatch : SpeechRecognitionEvent :=
  {| resultIndex := 0; results := [slot true Scenario.hello] |}.

Definition secondBatch : SpeechRecognitionEvent :=
  {| resultIndex := 1;
     results := [slot true Scenario.hello; slot true Scenario.test] |}.

(** A session in which a single space was recognized, paused and
    resumed before the termination of the pause is delivered; "hello" is
    recognized after the restart.  Every update is rendered before the
    next event. *)
Definition resumedEarly : list Hook.Event :=
  [ Start Scenario.en_US;
    OnResult {| resultIndex := 0; results := [slot true Literal.space] |};
    Refresh; Pause; Resume; OnEnd; Refresh;
    OnResult {| resultIndex := 0; results := [slot true Scenario.hello] |} ].


(** A session in [App] with the final text "test" and the interim text
    "hello" on display. *)
Definition dictating : App.State :=
  App.run (App.mount true None None)
    [ (Scenario.clock1, App.ClickStartStop);
      (Scenario.clock1,
       App.EngineResult
         {| resultIndex := 0;
            results := [slot true Scenario.test; slot false Scenario.hello] |}) ].

(* ================================================================== *)
(** ** Facts about strings *)
(* ================================================================== *)

Section StringFacts.

Lemma eqb_eq (a b : jsstring) : JsString.eqb a b = true <-> a = b.
Proof.
  revert b. induction a as [|x a IH]; intros [|y b]; simpl;
    try (split; congruence).
  rewrite andb_true_iff, N.eqb_eq, IH. split.
  - now intros [-> ->].
  - intros H. now inversion H.
Qed.

Lemma eqb_refl (a : jsstring) : JsString.eqb a a = true.
Proof. now apply eqb_eq. Qed.

Lemma eqb_neq (a b : jsstring) : JsString.eqb a b = false <-> a <> b.
Proof.
  rewrite <- eqb_eq. destruct (JsString.eqb a b); split; congruence.
Qed.

Lemma truthy_false (s : jsstring) : truthy s = false <-> s = [].
Proof. destruct s; simpl; split; congruence. Qed.

(** The string left by [trimStart] is empty or starts with a visible
    character. *)
Lemma trimStart_head (s : jsstring) :
  trimStart s = [] \/
  exists c r, trimStart s = c :: r /\ is_whitespace c = false.
Proof.
  induction s as [|c r IH]; simpl.
  - now left.
  - destruct (is_whitespace c) eqn:W.
    + exact IH.
    + right. now exists c, r.
Qed.

Lemma trimStart_visible (c : char16) (r : jsstring) :
  is_whitespace c = false -> trimStart (c :: r) = c :: r.
Proof. intros W. simpl. now rewrite W. Qed.

Lemma trimEnd_visible (c : char16) (r : jsstring) :
  is_whitespace c = false -> trimEnd (c :: r) = c :: trimEnd r.
Proof.
  intros W. simpl. destruct (trimEnd r); [now rewrite W | reflexivity].
Qed.

Lemma trimEnd_cons (c : char16) (r : jsstring) :
  trimEnd (c :: r) =
  match trimEnd r with
  | [] => if is_whitespace c then [] else [c]
  | r' => c :: r'
  end.
Proof. reflexivity. Qed.

Lemma trimEnd_idem (s : jsstring) : trimEnd (trimEnd s) = trimEnd s.
Proof.
  induction s as [|c r IH]; [reflexivity|].
  simpl. destruct (trimEnd r) as [|d r'] eqn:E.
  - destruct (is_whitespace c) eqn:W; [reflexivity|].
    simpl. now rewrite W.
  - rewrite trimEnd_cons, IH. reflexivity.
Qed.

(** [trim] strips nothing from a string it produced. *)
Lemma trim_idem (s : jsstring) : trim (trim s) = trim s.
Proof.
  unfold trim.
  destruct (trimStart_head s) as [E | (c & r & E & W)]; rewrite E.
  - reflexivity.
  - rewrite (trimEnd_visible c r W), (trimStart_visible c _ W).
    rewrite (trimEnd_visible c _ W). now rewrite trimEnd_idem.
Qed.

(** A string produced by [trimEnd] does not end with white space. *)
Lemma trimEnd_last (s p : jsstring) (c : char16) :
  trimEnd s = p ++ [c] -> is_whitespace c = false.
Proof.
  revert p. induction s as [|a r IH]; intros p.
  - simpl. now destruct p.
  - simpl. destruct (trimEnd r) as [|d r'] eqn:E.
    + destruct (is_whitespace a) eqn:W.
      * now destruct p.
      * destruct p as [|b [|? ?]]; simpl; intros H; inversion H; congruence.
    + destruct p as [|b p']; simpl; intros H; inversion H; subst.
      now apply (IH p').
Qed.

Lemma trim_last (s p : jsstring) (c : char16) :
  trim s = p ++ [c] -> is_whitespace c = false.
Proof. unfold trim. apply trimEnd_last. Qed.

Lemma trim_visible_end (s : jsstring) : endsWithWhitespace (trim s) = false.
Proof.
  unfold endsWithWhitespace.
  destruct (rev (trim s)) as [|c p] eqn:E; [reflexivity|].
  apply (trim_last s (rev p)).
  rewrite <- (rev_involutive (trim s)), E. reflexivity.
Qed.

Lemma startsWith_app (p r : jsstring) : startsWith (p ++ r) p = true.
Proof.
  induction p as [|a p IH]; simpl; [reflexivity|].
  now rewrite N.eqb_refl, IH.
Qed.

Lemma startsWith_spec (s p : jsstring) :
  startsWith s p = true <-> exists r, s = p ++ r.
Proof.
  split.
  - revert s. induction p as [|a p IH]; intros s H.
    + now exists s.
    + destruct s as [|b s]; simpl in H; [discriminate|].
      apply andb_true_iff in H as [Hab H].
      apply N.eqb_eq in Hab. subst b.
      destruct (IH _ H) as [r ->]. now exists r.
  - intros [r ->]. apply startsWith_app.
Qed.

Lemma startsWith_refl (s : jsstring) : startsWith s s = true.
Proof.
  rewrite <- (app_nil_r s) at 1. apply startsWith_app.
Qed.

End StringFacts.

(* ================================================================== *)
(** ** Facts about the hook *)
(* ================================================================== *)

Ltac unfold_setters :=
  cbn [engineStart engineStop engineSetLang setRecognition
       setSpeakingTimeout setStopReason setError setFinalTranscript
       setLiveTranscript setIsSpeaking setIsPaused setIsListening
       setStateRef refresh
       isListening isPaused isSpeaking liveTranscript finalTranscript error
       recognitionRef stopReasonRef speakingTimeoutRef stateRef
       isListeningNow isPausedNow liveTranscriptNow finalTranscriptNow] in *.

Section HookFacts.

Lemma skipn_nth_error {A} (l : list A) (i : nat) (x : A) :
  nth_error l i = Some x -> skipn i l = x :: skipn (S i) l.
Proof.
  revert i. induction l as [|a l IH]; intros [|i] H; simpl in H;
    try discriminate.
  - now inversion H.
  - now apply IH.
Qed.

(** The loop computes the two concatenations of the specification. *)
Lemma resultsLoop_spec (rs : list SpeechRecognitionResult) (n i : nat)
    (final interim : jsstring) :
  n = length rs - i ->
  resultsLoop rs n i final interim =
  (final ++ concat (map slotText (filter isFinal (skipn i rs))),
   interim ++ concat (map slotText
                        (filter (fun r => negb (isFinal r)) (skipn i rs)))).
Proof.
  revert i final interim.
  induction n as [|n IH]; intros i final interim Hn.
  - rewrite skipn_all2 by lia. simpl. now rewrite !app_nil_r.
  - simpl. destruct (nth_error rs i) as [r|] eqn:E.
    + rewrite (skipn_nth_error rs i r E). simpl.
      destruct (isFinal r); simpl; rewrite IH by lia; unfold slotText;
        now rewrite <- ?app_assoc.
    + apply nth_error_None in E. lia.
Qed.

Lemma processResults_final (ev : SpeechRecognitionEvent) (s : State) :
  finalTranscript (processResults ev s) =
  finalTranscriptNow (stateRef s) ++ finalDelta ev.
Proof.
  unfold processResults. rewrite resultsLoop_spec by reflexivity.
  reflexivity.
Qed.

Lemma processResults_live (ev : SpeechRecognitionEvent) (s : State) :
  liveTranscript (processResults ev s) =
  finalTranscriptNow (stateRef s) ++ finalDelta ev ++ interimText ev.
Proof.
  unfold processResults. rewrite resultsLoop_spec by reflexivity.
  unfold_setters. unfold finalDelta, interimText.
  now rewrite app_nil_l, app_assoc.
Qed.

(** A batch writes the two transcripts and the speaking indicator and
    nothing else. *)
Lemma processResults_others (ev : SpeechRecognitionEvent) (s : State) :
  isListening (processResults ev s) = isListening s /\
  isPaused (processResults ev s) = isPaused s /\
  isSpeaking (processResults ev s) = true /\
  error (processResults ev s) = error s /\
  recognitionRef (processResults ev s) = recognitionRef s /\
  stopReasonRef (processResults ev s) = stopReasonRef s /\
  stateRef (processResults ev s) = stateRef s.
Proof.
  unfold processResults. destruct (resultsLoop _ _ _ _ _).
  now repeat split.
Qed.

Lemma handleEnd_restart (s : State) :
  restarts s = true ->
  handleEnd s = engineStart (setSpeakingTimeout false (setIsSpeaking false s)).
Proof. unfold restarts, handleEnd. now intros ->. Qed.

Lemma handleEnd_finalize (s : State) :
  restarts s = false ->
  handleEnd s =
  setLiveTranscript (trim (liveTranscriptNow (stateRef s)))
    (setFinalTranscript (trim (liveTranscriptNow (stateRef s)))
       (setSpeakingTimeout false (setIsSpeaking false s))).
Proof. unfold restarts, handleEnd. now intros ->. Qed.

(** A termination leaves the flags, [stopReason] and [stateRef.current]
    alone. *)
Lemma handleEnd_others (s : State) :
  isListening (handleEnd s) = isListening s /\
  isPaused (handleEnd s) = isPaused s /\
  error (handleEnd s) = error s /\
  stopReasonRef (handleEnd s) = stopReasonRef s /\
  stateRef (handleEnd s) = stateRef s.
Proof.
  unfold handleEnd.
  destruct (StopReason_eqb (stopReasonRef s) auto && isListeningNow (stateRef s)
            && negb (isPausedNow (stateRef s))); now repeat split.
Qed.

Lemma restarts_handleEnd (s : State) : restarts (handleEnd s) = restarts s.
Proof.
  destruct (handleEnd_others s) as (_ & _ & _ & Hr & Hs).
  unfold restarts. now rewrite Hr, Hs.
Qed.

Lemma StopReason_eqb_eq (a b : StopReason) :
  StopReason_eqb a b = true <-> a = b.
Proof. destruct a, b; simpl; split; congruence. Qed.

Lemma fresh_refresh (s : State) : fresh (refresh s).
Proof. reflexivity. Qed.

Lemma refresh_fresh (s : State) : fresh s -> refresh s = s.
Proof.
  unfold fresh, refresh, setStateRef. intros <-. now destruct s.
Qed.

(** What the test of [handleEnd] is once the effect has run. *)
Lemma restarts_refresh (s : State) :
  restarts (refresh s) =
  StopReason_eqb (stopReasonRef s) auto && isListening s && negb (isPaused s).
Proof. reflexivity. Qed.

End HookFacts.

(* ================================================================== *)
(** ** Invariants of the hook *)
(* ================================================================== *)

Section HookInvariants.

(** A property kept by every event holds in every reachable state. *)
Lemma run_invariant (P : State -> Prop) :
  (forall s e, P s -> P (step s e)) ->
  forall es s, P s -> P (run s es).
Proof.
  intros Hstep es. induction es as [|e es IH]; intros s Hs.
  - exact Hs.
  - simpl. apply IH, Hstep, Hs.
Qed.

Lemma reachable_invariant (P : State -> Prop) :
  (forall supported, P (mount supported)) ->
  (forall s e, P s -> P (step s e)) ->
  forall s, reachable s -> P s.
Proof.
  intros Hinit Hstep s (supported & es & ->).
  apply run_invariant; [exact Hstep | apply Hinit].
Qed.

Lemma run_snoc (s : State) (es : list Event) (e : Event) :
  run s (es ++ [e]) = step (run s es) e.
Proof. unfold run. now rewrite fold_left_app. Qed.

Lemma run_app (s : State) (es1 es2 : list Event) :
  run s (es1 ++ es2) = run (run s es1) es2.
Proof. unfold run. now rewrite fold_left_app. Qed.

Lemma flagsFreshWhileAuto_step (s : State) (e : Event) :
  flagsFreshWhileAuto s -> flagsFreshWhileAuto (step s e).
Proof.
  unfold flagsFreshWhileAuto. intros H.
  destruct e as [l| | | |ev| |ev| |]; simpl.
  - now split.
  - discriminate.
  - discriminate.
  - now split.
  - destruct (processResults_others ev s) as (-> & -> & _ & _ & _ & -> & ->).
    exact H.
  - destruct (handleEnd_others s) as (-> & -> & _ & -> & ->). exact H.
  - unfold onerror.
    destruct (JsString.eqb (errorCode ev) Literal.aborted);
      [exact H | discriminate].
  - unfold speakingTimeout. destruct (speakingTimeoutRef s); exact H.
  - now split.
Qed.

Lemma reachable_flagsFreshWhileAuto (s : State) :
  reachable s -> flagsFreshWhileAuto s.
Proof.
  apply reachable_invariant.
  - intros supported. unfold flagsFreshWhileAuto. now split.
  - apply flagsFreshWhileAuto_step.
Qed.

Lemma livePrefix_step (s : State) (e : Event) :
  livePrefix s -> livePrefix (step s e).
Proof.
  unfold livePrefix. intros H.
  destruct e as [l| | | |ev| |ev| |]; simpl.
  - reflexivity.
  - exact H.
  - exact H.
  - unfold resumeListening.
    destruct (truthy (trim (liveTranscriptNow (stateRef s)))); unfold_setters;
      [apply startsWith_refl | exact H].
  - rewrite processResults_live, processResults_final, app_assoc.
    apply startsWith_app.
  - unfold handleEnd.
    destruct (StopReason_eqb (stopReasonRef s) auto
              && isListeningNow (stateRef s)
              && negb (isPausedNow (stateRef s))); unfold_setters;
      [exact H | apply startsWith_refl].
  - unfold onerror.
    destruct (JsString.eqb (errorCode ev) Literal.aborted); exact H.
  - unfold speakingTimeout. destruct (speakingTimeoutRef s); exact H.
  - exact H.
Qed.

(** While [stopReason] is not [auto], nothing but a call from [App]
    makes it [auto]. *)
Lemma unasked_keeps_stopped (s : State) (e : Event) :
  stopReasonRef s <> auto -> unasked e = true ->
  stopReasonRef (step s e) <> auto.
Proof.
  intros H. destruct e as [l| | | |ev| |ev| |]; simpl; try discriminate;
    intros _.
  - now destruct (processResults_others ev s) as (_ & _ & _ & _ & _ & -> & _).
  - now destruct (handleEnd_others s) as (_ & _ & _ & -> & _).
  - unfold onerror.
    destruct (JsString.eqb (errorCode ev) Literal.aborted);
      [exact H | discriminate].
  - unfold speakingTimeout. now destruct (speakingTimeoutRef s).
  - exact H.
Qed.

Lemma unasked_run_keeps_stopped (es : list Event) (s : State) :
  stopReasonRef s <> auto -> forallb unasked es = true ->
  stopReasonRef (run s es) <> auto.
Proof.
  revert s. induction es as [|e es IH]; intros s H Hes; [exact H|].
  simpl in Hes. apply andb_true_iff in Hes as [He Hes].
  simpl. apply IH; [now apply unasked_keeps_stopped | exact Hes].
Qed.

Lemma stopped_never_restarts (s : State) :
  stopReasonRef s <> auto -> restarts s = false.
Proof.
  unfold restarts. destruct (stopReasonRef s); [reflexivity..|congruence].
Qed.

End HookInvariants.

(* ================================================================== *)
(** ** The claims about the session controller *)
(* ================================================================== *)

(** C1.  A termination delivered while [stopReason] is [auto] and the
    session is listening and not paused calls [start] on the engine again
    and leaves [finalTranscript], [liveTranscript], [isListening],
    [isPaused], [error] and [stopReason] as they were; of what the hook
    shows only the speaking indicator changes: it is cleared.  The flags
    the termination tests are those of [stateRef.current]; they are the
    flags of the state in every state the hook can reach with
    [stopReason] [auto].  In the scenario [start("en-US")], one final slot
    "hello" at index 0, [onEnd]: [finalTranscript] is "hello" before and
    after the restart, the session is still listening and the engine was
    started twice. *)
Theorem C1_auto_restart_keeps_transcript :
  (forall s : State,
      stopReasonRef s = auto -> isListening s = true -> isPaused s = false ->
      isListeningNow (stateRef s) = isListening s ->
      isPausedNow (stateRef s) = isPaused s ->
      let s' := handleEnd s in
      finalTranscript s' = finalTranscript s /\
      liveTranscript s' = liveTranscript s /\
      isListening s' = true /\
      isPaused s' = false /\
      error s' = error s /\
      stopReasonRef s' = auto /\
      isSpeaking s' = false /\
      recognitionRef s' = option_map (call CallStart) (recognitionRef s)) /\
  (forall s : State,
      reachable s ->
      stopReasonRef s = auto -> isListening s = true -> isPaused s = false ->
      let s' := handleEnd s in
      finalTranscript s' = finalTranscript s /\
      liveTranscript s' = liveTranscript s /\
      isListening s' = true /\
      isPaused s' = false /\
      error s' = error s /\
      stopReasonRef s' = auto /\
      isSpeaking s' = false /\
      recognitionRef s' = option_map (call CallStart) (recognitionRef s)) /\
  (let before :=
     run (mount true)
       [Start (lit "en-US");
        OnResult {| resultIndex := 0; results := [slot true (lit "hello")] |}] in
   let after := step before OnEnd in
   finalTranscript before = lit "hello" /\
   finalTranscript after = lit "hello" /\
   liveTranscript after = liveTranscript before /\
   isListening before = true /\
   isListening after = true /\
   option_map calls (recognitionRef before) = Some [CallStart] /\
   option_map calls (recognitionRef after) = Some [CallStart; CallStart]).
Proof.
  assert (G : forall s : State,
      stopReasonRef s = auto -> isListening s = true -> isPaused s = false ->
      isListeningNow (stateRef s) = isListening s ->
      isPausedNow (stateRef s) = isPaused s ->
      let s' := handleEnd s in
      finalTranscript s' = finalTranscript s /\
      liveTranscript s' = liveTranscript s /\
      isListening s' = true /\
      isPaused s' = false /\
      error s' = error s /\
      stopReasonRef s' = auto /\
      isSpeaking s' = false /\
      recognitionRef s' = option_map (call CallStart) (recognitionRef s)).
  { intros s Hr Hl Hp Fl Fp s'. subst s'.
    rewrite handleEnd_restart
      by (unfold restarts; now rewrite Hr, Fl, Fp, Hl, Hp).
    unfold_setters. now repeat split. }
  split; [exact G|]. split.
  - intros s Hs Hr Hl Hp.
    destruct (reachable_flagsFreshWhileAuto s Hs Hr) as (Fl & Fp).
    now apply G.
  - vm_compute. now repeat split.
Qed.

Lemma C1_auto_restart_keeps_transcript_witness :
  let s := step (mount true) (Start Literal.pt_BR) in
  finalTranscript (handleEnd s) = finalTranscript s /\
  isListening (handleEnd s) = true.
Proof.
  intros s.
  destruct (proj1 C1_auto_restart_keeps_transcript s
              eq_refl eq_refl eq_refl eq_refl eq_refl) as (Hf & _ & Hl & _).
  split; [exact Hf | exact Hl].
Defined.

(** C1 as first stated fails in its own scenario: after the batch with
    "hello" the speaking indicator is on, and the termination that
    restarts the engine turns it off, so what the hook shows after the
    restart is not what it showed before. *)
Lemma C1_restart_clears_speaking :
  stopReasonRef Scenario.heard = auto /\
  isListening Scenario.heard = true /\
  isPaused Scenario.heard = false /\
  isSpeaking Scenario.heard = true /\
  isSpeaking (handleEnd Scenario.heard) = false /\
  observable (handleEnd Scenario.heard) <> observable Scenario.heard.
Proof.
  repeat split. discriminate.
Qed.

(** C2.  [processResults] walks the slots from [resultIndex] upwards,
    appends the text of the final ones to the [finalTranscript] it reads
    (the one of [stateRef.current]) and the text of the others to a
    separate accumulator: the new [finalTranscript] is the text read
    followed by the final texts, and the new [liveTranscript] is the new
    [finalTranscript] followed by the interim texts.  Once the effect has
    run the text read is the [finalTranscript] of the state.  A non-final
    "wor" at index 0 after [start] shows "wor" live with nothing final; a
    final "world" at index 0 then makes [finalTranscript] "world". *)
Theorem C2_processResults_merge :
  (forall (ev : SpeechRecognitionEvent) (s : State),
      finalTranscript (processResults ev s) =
        finalTranscriptNow (stateRef s) ++ finalDelta ev /\
      liveTranscript (processResults ev s) =
        finalTranscript (processResults ev s) ++ interimText ev) /\
  (forall (ev : SpeechRecognitionEvent) (s : State),
      finalTranscript (processResults ev (refresh s)) =
        finalTranscript s ++ finalDelta ev /\
      liveTranscript (processResults ev (refresh s)) =
        finalTranscript (processResults ev (refresh s)) ++ interimText ev) /\
  (let s1 :=
     run (mount true)
       [Start (lit "pt-BR");
        OnResult {| resultIndex := 0; results := [slot false (lit "wor")] |}] in
   let s2 :=
     step s1
       (OnResult {| resultIndex := 0; results := [slot true (lit "world")] |}) in
   liveTranscript s1 = lit "wor" /\ finalTranscript s1 = [] /\
   finalTranscript s2 = lit "world").
Proof.
  split; [|split].
  - intros ev s. rewrite processResults_live, processResults_final.
    split; [reflexivity | now rewrite app_assoc].
  - intros ev s. rewrite processResults_live, processResults_final.
    split; [reflexivity | now rewrite app_assoc].
  - vm_compute. now repeat split.
Qed.



Section PauseFacts.

Lemma resumeListening_flags (x : State) :
  stopReasonRef (resumeListening x) = auto /\
  isPaused (resumeListening x) = false /\
  recognitionRef (resumeListening x) =
    option_map (call CallStart) (recognitionRef x).
Proof.
  unfold resumeListening.
  destruct (truthy (trim (liveTranscriptNow (stateRef x))));
    repeat split; reflexivity.
Qed.

(** What a batch shows after a resume. *)
Lemma resume_then_batch (s : State) (ev : SpeechRecognitionEvent) :
  liveTranscript (processResults ev (step s Resume)) =
  (if truthy (trim (liveTranscriptNow (stateRef s)))
   then trim (liveTranscriptNow (stateRef s)) ++ Literal.space ++ spoken ev
   else finalTranscript s ++ spoken ev).
Proof.
  rewrite processResults_live. simpl step. unfold resumeListening.
  destruct (truthy (trim (liveTranscriptNow (stateRef s))));
    unfold_setters; unfold spoken.
  - now rewrite <- !app_assoc.
  - reflexivity.
Qed.

(** After a termination that finalizes and the render that follows it,
    a resume and a batch show the trimmed text, one space when it is not
    empty, and what the batch says. *)
Lemma finalized_resume_then_batch (y : State) (ev : SpeechRecognitionEvent) :
  stopReasonRef y <> auto ->
  let t := trim (liveTranscriptNow (stateRef y)) in
  let s := refresh (handleEnd y) in
  finalTranscript s = t /\ liveTranscript s = t /\
  liveTranscript (processResults ev (step s Resume)) =
    (if truthy t then t ++ Literal.space ++ spoken ev else spoken ev).
Proof.
  intros N t s.
  assert (E : handleEnd y =
              setLiveTranscript t
                (setFinalTranscript t
                   (setSpeakingTimeout false (setIsSpeaking false y))))
    by apply handleEnd_finalize, stopped_never_restarts, N.
  assert (Hf : finalTranscript s = t) by (subst s; now rewrite E).
  assert (Hl : liveTranscript s = t) by (subst s; now rewrite E).
  assert (Ht : trim (liveTranscriptNow (stateRef s)) = t).
  { subst s. rewrite E. unfold_setters. apply trim_idem. }
  split; [exact Hf|]. split; [exact Hl|].
  rewrite resume_then_batch, Ht, Hf.
  destruct (truthy t) eqn:T; [reflexivity|].
  apply truthy_false in T. now rewrite T.
Qed.

End PauseFacts.

(** C4.  [resumeListening] and then a batch of results, all earlier
    updates rendered: with t the trimmed [liveTranscript] of the moment
    of the resume, [liveTranscript] is t, one space and what the batch
    says when t is not empty, and the [finalTranscript] of that moment
    followed by what the batch says when t is empty.  t does not end with
    white space, so the space added is the only separator.
    [resumeListening] leaves [stopReason] at [auto] and the paused flag
    cleared, and calls [start] on the engine.  When the termination of
    the pause has been delivered and rendered before the resume, whatever
    callbacks came during the pause, that [finalTranscript] is t itself:
    with t empty the batch is shown with nothing before it.  So it is for
    pause, termination, resume and a batch in this order, where t is the
    trimmed [liveTranscript] of before the pause. *)
Theorem C4_pause_resume_seam :
  (forall (s : State) (ev : SpeechRecognitionEvent),
      let t := trim (liveTranscript s) in
      let resumed := step (refresh s) Resume in
      liveTranscript (processResults ev resumed) =
        (if truthy t then t ++ Literal.space ++ spoken ev
         else finalTranscript s ++ spoken ev) /\
      endsWithWhitespace t = false /\
      stopReasonRef resumed = auto /\
      isPaused resumed = false /\
      recognitionRef resumed =
        option_map (call CallStart) (recognitionRef s)) /\
  (forall (y : State) (late : list Event) (ev : SpeechRecognitionEvent),
      stopReasonRef y = paused ->
      forallb unasked late = true ->
      let pausedState := run y late in
      let t := trim (liveTranscriptNow (stateRef pausedState)) in
      let s := refresh (handleEnd pausedState) in
      finalTranscript s = t /\
      liveTranscript s = t /\
      liveTranscript (processResults ev (step s Resume)) =
        (if truthy t then t ++ Literal.space ++ spoken ev else spoken ev)) /\
  (forall (x : State) (ev : SpeechRecognitionEvent),
      let t := trim (liveTranscript x) in
      let s := refresh (handleEnd (step (refresh x) Pause)) in
      liveTranscript (processResults ev (step s Resume)) =
        (if truthy t then t ++ Literal.space ++ spoken ev else spoken ev)) /\
  Literal.space = lit " ".
Proof.
  split; [|split; [|split]].
  - intros s ev t resumed. split; [apply (resume_then_batch (refresh s))|].
    split; [apply trim_visible_end|]. subst resumed. simpl step.
    destruct (resumeListening_flags (refresh s)) as (Hr & Hp & He).
    unfold_setters. now repeat split.
  - intros y late ev Hy Hlate pausedState t s.
    apply finalized_resume_then_batch.
    subst pausedState. apply unasked_run_keeps_stopped; [|exact Hlate].
    rewrite Hy. discriminate.
  - intros x ev t s.
    apply (finalized_resume_then_batch (step (refresh x) Pause) ev).
    discriminate.
  - vm_compute. reflexivity.
Qed.

Lemma C4_pause_resume_seam_witness :
  let y := step (refresh Scenario.heard) Pause in
  let late := [OnResult secondBatch; Refresh; SpeakingTimeout] in
  let s := refresh (handleEnd (run y late)) in
  stopReasonRef y = paused /\
  liveTranscript (processResults firstBatch (step s Resume)) =
    (if truthy (trim (liveTranscriptNow (stateRef (run y late))))
     then trim (liveTranscriptNow (stateRef (run y late)))
          ++ Literal.space ++ spoken firstBatch
     else spoken firstBatch).
Proof.
  intros y late s. split; [reflexivity|].
  exact (proj2 (proj2 (proj1 (proj2 C4_pause_resume_seam) y late firstBatch
                         eq_refl eq_refl))).
Defined.

(** C4 as first stated fails when the resume comes before the
    termination of the pause: a single space was recognized, so the
    trimmed text is empty, yet "hello" is shown with that space before
    it. *)
Lemma C4_resume_before_termination_keeps_space :
  trim (liveTranscript (run (mount true) (firstn 4 resumedEarly))) = [] /\
  isPaused (run (mount true) (firstn 4 resumedEarly)) = true /\
  stopReasonRef (run (mount true) (firstn 5 resumedEarly)) = auto /\
  isPaused (run (mount true) (firstn 5 resumedEarly)) = false /\
  liveTranscript (run (mount true) resumedEarly) = lit " hello" /\
  liveTranscript (run (mount true) resumedEarly) <> lit "hello".
Proof.
  vm_compute. repeat split. discriminate.
Qed.

Section ErrorMessages.






End ErrorMessages.



(** C7.  [processResults] builds on the [finalTranscript] of
    [stateRef.current]; when a second batch comes before the effect has
    refreshed it, the final text of the first is dropped.  After start, a
    final "hello" in slot 0 and then a final "test" in slot 1, with the
    session listening and not paused throughout, [finalTranscript] goes
    from "hello" to "test": it gets shorter.  With the refresh between
    the two batches it is "hellotest". *)
Theorem C7_stale_snapshot_shrinks_final :
  let s0 := step (mount true) (Start Scenario.en_US) in
  let s1 := step s0 (OnResult firstBatch) in
  let s2 := step s1 (OnResult secondBatch) in
  isListening s1 = true /\ isPaused s1 = false /\
  isListening s2 = true /\ isPaused s2 = false /\
  stopReasonRef s1 = auto /\ stopReasonRef s2 = auto /\
  finalTranscript s1 = lit "hello" /\
  finalTranscript s2 = lit "test" /\
  length (finalTranscript s2) < length (finalTranscript s1) /\
  finalTranscript (step (step s1 Refresh) (OnResult secondBatch)) =
    lit "hellotest".
Proof.
  vm_compute. repeat split; lia.
Qed.

(** C8.  In every state the hook can reach by calls of start, stop,
    pause and resume and by result batches, terminations, errors and
    timer expiries, [liveTranscript] starts with [finalTranscript]:
    [liveTranscript] is [finalTranscript] followed by some text. *)
Theorem C8_live_starts_with_final :
  forall s : State,
    reachable s ->
    startsWith (liveTranscript s) (finalTranscript s) = true /\
    exists interim, liveTranscript s = finalTranscript s ++ interim.
Proof.
  intros s Hs.
  assert (H : livePrefix s).
  { revert s Hs. apply reachable_invariant.
    - intros supported. reflexivity.
    - apply livePrefix_step. }
  split; [exact H | now apply startsWith_spec].
Qed.

Lemma C8_live_starts_with_final_witness :
  let s :=
    run (mount true)
      [Start Literal.pt_BR;
       OnResult {| resultIndex := 0;
                   results := [slot true Literal.pt_BR;
                               slot false Literal.space] |};
       Pause; OnEnd; Resume] in
  reachable s /\
  startsWith (liveTranscript s) (finalTranscript s) = true.
Proof.
  intros s.
  assert (Hr : reachable s) by (eexists true, _; reflexivity).
  split; [exact Hr | exact (proj1 (C8_live_starts_with_final s Hr))].
Defined.

(* ================================================================== *)
(** ** Facts about the history effect *)
(* ================================================================== *)

Import App.

Ltac unfold_app_setters :=
  cbn [handleDeleteTranscript handleClearHistory handleViewHistoryItem
       setEffectDeps setStored setIsHistoryVisible setHistory
       setSelectedLang setFinalContent setSpeech deps refreshed
       speech finalContent selectedLang history historyRef isHistoryVisible
       transcriptHistory effectDeps] in *.

Section HistoryFacts.

Lemma nonempty_length (s : jsstring) : (0 <? length s) = truthy s.
Proof. now destruct s. Qed.

Lemma truthy_of_trim (c : jsstring) : truthy (trim c) = true -> truthy c = true.
Proof. destruct c; [discriminate | reflexivity]. Qed.

Lemma saveToHistory_cases (clk : Clock) (listening : bool) (c : jsstring)
    (h : list Transcript) :
  saveToHistory clk listening c h =
  if saves listening c h
  then {| id := now clk; date := localeString clk; content := trim c |} :: h
  else h.
Proof.
  unfold saveToHistory, saves. rewrite nonempty_length.
  destruct (negb listening && truthy c); [|reflexivity].
  simpl. destruct (truthy (trim c) && negb (isAlreadySaved (trim c) h));
    reflexivity.
Qed.

Lemma historyEffect_history (clk : Clock) (a : App.State) :
  history (historyEffect clk a) =
  saveToHistory clk (isListening (speech a)) (finalTranscript (speech a))
    (history a).
Proof.
  unfold historyEffect, saveToHistory.
  destruct (negb (isListening (speech a))
            && truthy (finalTranscript (speech a))); [|reflexivity].
  unfold_app_setters.
  destruct ((0 <? length (trim (finalTranscript (speech a))))
            && negb (isAlreadySaved (trim (finalTranscript (speech a)))
                       (history a))); reflexivity.
Qed.

Lemma historyEffect_speech (clk : Clock) (a : App.State) :
  speech (historyEffect clk a) = speech a.
Proof.
  unfold historyEffect.
  destruct (negb (isListening (speech a))
            && truthy (finalTranscript (speech a))); [|reflexivity].
  destruct ((0 <? length (trim (finalTranscript (speech a))))
            && negb (isAlreadySaved (trim (finalTranscript (speech a)))
                       (history a))); reflexivity.
Qed.

Lemma historyEffect_effectDeps (clk : Clock) (a : App.State) :
  effectDeps (historyEffect clk a) = effectDeps a.
Proof.
  unfold historyEffect.
  destruct (negb (isListening (speech a))
            && truthy (finalTranscript (speech a))); [|reflexivity].
  destruct ((0 <? length (trim (finalTranscript (speech a))))
            && negb (isAlreadySaved (trim (finalTranscript (speech a)))
                       (history a))); reflexivity.
Qed.

(** The effect installs a new array exactly when it adds an entry. *)
Lemma historyEffect_historyRef (clk : Clock) (a : App.State) :
  historyRef (historyEffect clk a) =
  if saves (isListening (speech a)) (finalTranscript (speech a)) (history a)
  then S (historyRef a) else historyRef a.
Proof.
  unfold historyEffect, saves. rewrite nonempty_length.
  destruct (negb (isListening (speech a))
            && truthy (finalTranscript (speech a))); [|reflexivity].
  simpl.
  destruct (truthy (trim (finalTranscript (speech a)))
            && negb (isAlreadySaved (trim (finalTranscript (speech a)))
                       (history a))); reflexivity.
Qed.

(** Once the effect has run, the trimmed transcript is in the history
    whenever an entry could be made of it. *)
Lemma saved_after_save (clk : Clock) (c c' : jsstring) (h : list Transcript) :
  trim c = trim c' ->
  saves false c' (saveToHistory clk false c h) = false.
Proof.
  intros E. rewrite saveToHistory_cases. unfold saves at 1.
  destruct (truthy c') eqn:Tc'; [|reflexivity].
  destruct (truthy (trim c')) eqn:Tt; [|reflexivity].
  simpl. apply negb_false_iff.
  destruct (saves false c h) eqn:S.
  - simpl. now rewrite trim_idem, E, eqb_refl.
  - unfold saves in S. simpl in S. rewrite <- E in *.
    rewrite (truthy_of_trim c Tt), Tt in S. simpl in S.
    now apply negb_false_iff in S.
Qed.

Lemma save_twice (clk1 clk2 : Clock) (c1 c2 : jsstring) (h : list Transcript) :
  trim c1 = trim c2 ->
  saveToHistory clk2 false c2 (saveToHistory clk1 false c1 h) =
  saveToHistory clk1 false c1 h.
Proof.
  intros E. rewrite (saveToHistory_cases clk2).
  now rewrite (saved_after_save clk1 c1 c2 h E).
Qed.

Lemma Deps_eqb_eq (a b : Deps) : Deps_eqb a b = true <-> a = b.
Proof.
  destruct a as [[l1 f1] h1], b as [[l2 f2] h2]. unfold Deps_eqb.
  rewrite !andb_true_iff, Bool.eqb_true_iff, eqb_eq, Nat.eqb_eq.
  split.
  - now intros [[-> ->] ->].
  - intros H. now inversion H.
Qed.

Lemma Deps_eqb_refl (d : Deps) : Deps_eqb d d = true.
Proof. now apply Deps_eqb_eq. Qed.

Lemma flushEffects_atRest (n : nat) (clk : Clock) (a : App.State) :
  atRest a -> flushEffects n clk a = a.
Proof.
  intros H. destruct n; [reflexivity|]. simpl.
  unfold atRest in H. now rewrite H, Deps_eqb_refl.
Qed.

Lemma flushEffects_add (m n : nat) (clk : Clock) (a : App.State) :
  flushEffects (m + n) clk a = flushEffects n clk (flushEffects m clk a).
Proof.
  revert a. induction m as [|m IH]; intros a; [reflexivity|].
  simpl. destruct (Deps_eqb (effectDeps a) (deps a)) eqn:E.
  - symmetry. apply flushEffects_atRest. now apply Deps_eqb_eq.
  - apply IH.
Qed.

Lemma render_atRest_unless_saves (clk : Clock) (a : App.State) :
  saves (isListening (speech a)) (finalTranscript (speech a)) (history a)
    = false ->
  atRest (render clk a).
Proof.
  intros S. unfold atRest, render, deps.
  rewrite historyEffect_effectDeps, historyEffect_speech,
    historyEffect_historyRef.
  unfold_app_setters. now rewrite S.
Qed.

Lemma render_saves_nothing_more (clk : Clock) (a : App.State) :
  saves (isListening (speech (render clk a)))
    (finalTranscript (speech (render clk a))) (history (render clk a))
  = false.
Proof.
  unfold render. rewrite historyEffect_speech, historyEffect_history.
  unfold_app_setters.
  destruct (isListening (speech a)) eqn:L; [reflexivity|].
  now apply saved_after_save.
Qed.

(** Two renders are enough: the effect is then at rest, and more fuel
    changes nothing. *)
Lemma commit_atRest (clk : Clock) (a : App.State) : atRest (commit clk a).
Proof.
  unfold commit. simpl.
  destruct (Deps_eqb (effectDeps a) (deps a)) eqn:E.
  - now apply Deps_eqb_eq.
  - fold (render clk a).
    destruct (Deps_eqb (effectDeps (render clk a)) (deps (render clk a)))
      eqn:E'.
    + now apply Deps_eqb_eq.
    + fold (render clk (render clk a)).
      apply render_atRest_unless_saves.
      apply render_saves_nothing_more.
Qed.

Lemma flushEffects_enough (n : nat) (clk : Clock) (a : App.State) :
  flushEffects (2 + n) clk a = commit clk a.
Proof.
  rewrite flushEffects_add. apply flushEffects_atRest, commit_atRest.
Qed.

Lemma commit_speech (clk : Clock) (a : App.State) :
  speech (commit clk a) = speech a.
Proof.
  unfold commit. simpl.
  destruct (Deps_eqb (effectDeps a) (deps a)); [reflexivity|].
  fold (render clk a).
  assert (R : forall x, speech (render clk x) = speech x).
  { intros x. unfold render. now rewrite historyEffect_speech. }
  destruct (Deps_eqb (effectDeps (render clk a)) (deps (render clk a))).
  - apply R.
  - fold (render clk (render clk a)). now rewrite !R.
Qed.

End HistoryFacts.

Section DedupFacts.

Lemma isAlreadySaved_In (t : jsstring) (h : list Transcript) :
  isAlreadySaved t h = true <-> In t (map trimmedContentOf h).
Proof.
  unfold isAlreadySaved. rewrite existsb_exists, in_map_iff. split.
  - intros (x & Hx & E). apply eqb_eq in E. now exists x.
  - intros (x & E & Hx). exists x. split; [exact Hx | now apply eqb_eq].
Qed.

Lemma countSaved_unsaved (t : jsstring) (h : list Transcript) :
  isAlreadySaved t h = false -> countSaved t h = 0.
Proof.
  unfold isAlreadySaved, countSaved.
  induction h as [|x h IH]; simpl; [reflexivity|].
  intros H. apply orb_false_iff in H as [Hx Hh].
  rewrite Hx. now apply IH.
Qed.

Lemma saves_false_cases (c : jsstring) (h : list Transcript) :
  trim c = [] \/ isAlreadySaved (trim c) h = true -> saves false c h = false.
Proof.
  unfold saves. intros [E | E]; rewrite E; simpl.
  - now rewrite andb_false_r.
  - now rewrite andb_false_r.
Qed.

Lemma saves_true_cases (c : jsstring) (h : list Transcript) :
  trim c <> [] -> isAlreadySaved (trim c) h = false -> saves false c h = true.
Proof.
  unfold saves. intros N E. rewrite E. simpl.
  assert (T : truthy (trim c) = true).
  { destruct (truthy (trim c)) eqn:T; [reflexivity|].
    now apply truthy_false in T. }
  now rewrite T, (truthy_of_trim c T).
Qed.

End DedupFacts.

(* ================================================================== *)
(** ** The claims about the history *)
(* ================================================================== *)

(** C6.  The history the effect leaves is [saveToHistory] of the three
    values it reads.  Saving a content and then a content with the same
    trimmed text leaves the history of the first save: the second save
    adds nothing, so the two saves add at most one entry with that trimmed
    text, and a history whose trimmed contents are pairwise different
    stays so.  A save changes nothing when the trimmed content is empty or
    is the trimmed content of an entry already there; otherwise it puts
    the new entry, whose content is the trimmed text, in front. *)
Theorem C6_history_save_dedup :
  (forall (clk : Clock) (a : App.State),
      history (historyEffect clk a) =
      saveToHistory clk (isListening (speech a))
        (finalTranscript (speech a)) (history a)) /\
  (forall (clk1 clk2 : Clock) (c1 c2 : jsstring) (h : list Transcript),
      trim c1 = trim c2 ->
      let h1 := saveToHistory clk1 false c1 h in
      let h2 := saveToHistory clk2 false c2 h1 in
      h2 = h1 /\
      countSaved (trim c1) h2 <= Nat.max 1 (countSaved (trim c1) h) /\
      (NoDup (map trimmedContentOf h) -> NoDup (map trimmedContentOf h2)) /\
      (trim c1 = [] \/ isAlreadySaved (trim c1) h = true -> h1 = h) /\
      (trim c1 <> [] -> isAlreadySaved (trim c1) h = false ->
       h1 = {| id := now clk1; date := localeString clk1;
               content := trim c1 |} :: h)).
Proof.
  split; [exact historyEffect_history|].
  intros clk1 clk2 c1 c2 h E h1 h2.
  assert (H21 : h2 = h1) by (apply save_twice, E).
  split; [exact H21|]. rewrite H21. subst h1. clear h2 H21.
  rewrite saveToHistory_cases.
  split; [|split; [|split]].
  - destruct (saves false c1 h) eqn:S; [|lia].
    unfold saves in S. simpl in S.
    apply andb_true_iff in S as [_ S]. apply negb_true_iff in S.
    unfold countSaved at 1. simpl.
    rewrite trim_idem, eqb_refl. simpl.
    fold (countSaved (trim c1) h). rewrite (countSaved_unsaved _ _ S). lia.
  - intros ND. destruct (saves false c1 h) eqn:S; [|exact ND].
    unfold saves in S. simpl in S.
    apply andb_true_iff in S as [_ S]. apply negb_true_iff in S.
    simpl. constructor; [|exact ND].
    unfold trimmedContentOf at 1. simpl. rewrite trim_idem.
    intros HIn. apply isAlreadySaved_In in HIn. congruence.
  - intros H. now rewrite (saves_false_cases c1 h H).
  - intros N S. now rewrite (saves_true_cases c1 h N S).
Qed.

Lemma C6_history_save_dedup_witness :
  let clk1 := {| now := 1000; localeString := Literal.space |} in
  let clk2 := {| now := 2000; localeString := Literal.space |} in
  let c1 := Literal.pt_BR ++ Literal.space in
  let c2 := Literal.space ++ Literal.pt_BR in
  trim c1 = trim c2 /\
  saveToHistory clk2 false c2 (saveToHistory clk1 false c1 []) =
  saveToHistory clk1 false c1 [] /\
  saveToHistory clk1 false c1 [] =
  [{| id := 1000; date := Literal.space; content := Literal.pt_BR |}].
Proof.
  intros clk1 clk2 c1 c2.
  assert (E : trim c1 = trim c2) by reflexivity.
  destruct (proj2 C6_history_save_dedup clk1 clk2 c1 c2 [] E)
    as (H21 & _ & _ & _ & Hnew).
  split; [exact E|]. split; [exact H21|].
  apply Hnew; [discriminate | reflexivity].
Defined.

Section CommitFacts.

Lemma flagsFreshWhileAuto_fresh (s : Hook.State) :
  fresh s -> flagsFreshWhileAuto s.
Proof. unfold fresh, flagsFreshWhileAuto. intros -> _. now split. Qed.

Lemma flagsFreshWhileAuto_handleEnd (s : Hook.State) :
  flagsFreshWhileAuto s -> flagsFreshWhileAuto (handleEnd s).
Proof. exact (fun F => flagsFreshWhileAuto_step s OnEnd F). Qed.

(** The refresh does not change what a termination does with the
    engine when the flags read are those of the state. *)
Lemma restarts_refresh_same (s : Hook.State) :
  flagsFreshWhileAuto s -> restarts (refresh s) = restarts s.
Proof.
  intros F. rewrite restarts_refresh. unfold restarts.
  destruct (stopReasonRef s) eqn:R; try reflexivity.
  destruct (F R) as [-> ->]. reflexivity.
Qed.

(** Two terminations with no render between them. *)
Lemma handleEnd_twice (s : Hook.State) :
  let s1 := handleEnd s in
  let s2 := handleEnd s1 in
  observable s2 = observable s1 /\
  stopReasonRef s2 = stopReasonRef s1 /\
  speakingTimeoutRef s2 = speakingTimeoutRef s1 /\
  stateRef s2 = stateRef s1 /\
  (restarts s = false -> s2 = s1).
Proof.
  intros s1 s2. subst s1 s2.
  destruct (restarts s) eqn:R.
  - rewrite (handleEnd_restart (handleEnd s))
      by now rewrite restarts_handleEnd.
    rewrite (handleEnd_restart s R). unfold observable. unfold_setters.
    repeat split. discriminate.
  - rewrite (handleEnd_finalize (handleEnd s))
      by now rewrite restarts_handleEnd.
    rewrite (handleEnd_finalize s R). unfold observable. unfold_setters.
    repeat split.
Qed.

(** Two terminations with a render after each. *)
Lemma handleEnd_rendered_twice (s : Hook.State) :
  flagsFreshWhileAuto s ->
  let s1 := refresh (handleEnd s) in
  let s2 := refresh (handleEnd s1) in
  observable s2 = observable s1 /\
  stopReasonRef s2 = stopReasonRef s1 /\
  (restarts s = false -> s2 = s1).
Proof.
  intros F s1 s2.
  assert (R1 : restarts s1 = restarts s).
  { subst s1. rewrite restarts_refresh_same
      by now apply flagsFreshWhileAuto_handleEnd.
    apply restarts_handleEnd. }
  subst s2 s1. destruct (restarts s) eqn:R.
  - rewrite (handleEnd_restart _ R1), (handleEnd_restart s R).
    unfold observable. unfold_setters. repeat split. discriminate.
  - rewrite (handleEnd_finalize _ R1), (handleEnd_finalize s R).
    unfold observable. unfold_setters. rewrite trim_idem. repeat split.
Qed.

Lemma observable_fields (s1 s2 : Hook.State) :
  observable s1 = observable s2 ->
  isListening s1 = isListening s2 /\
  finalTranscript s1 = finalTranscript s2 /\
  liveTranscript s1 = liveTranscript s2.
Proof. unfold observable. intros H. inversion H. now repeat split. Qed.

Lemma commit_atRest_id (clk : Clock) (a : App.State) :
  atRest a -> commit clk a = a.
Proof. apply flushEffects_atRest. Qed.

(** When a dependency changed, the history after the renders is what
    one run of the effect makes of it. *)
Lemma commit_history (clk : Clock) (a : App.State) :
  history (commit clk a) =
  if Deps_eqb (effectDeps a) (deps a) then history a
  else saveToHistory clk (isListening (speech a))
         (finalTranscript (speech a)) (history a).
Proof.
  unfold commit. simpl.
  destruct (Deps_eqb (effectDeps a) (deps a)); [reflexivity|].
  fold (render clk a).
  assert (H : history (render clk a) =
              saveToHistory clk (isListening (speech a))
                (finalTranscript (speech a)) (history a)).
  { unfold render. now rewrite historyEffect_history. }
  destruct (Deps_eqb (effectDeps (render clk a)) (deps (render clk a)));
    [exact H|].
  rewrite historyEffect_history. unfold_app_setters.
  rewrite saveToHistory_cases, render_saves_nothing_more. exact H.
Qed.

Lemma unsaved_after_delete (t : jsstring) (i : Z) (h : list Transcript) :
  (forall item, In item h -> trim (content item) = t -> id item = i) ->
  isAlreadySaved t (filter (fun item => negb (Z.eqb (id item) i)) h) = false.
Proof.
  intros H. destruct (isAlreadySaved t _) eqn:E; [|reflexivity].
  unfold isAlreadySaved in E. apply existsb_exists in E as (x & Hx & Ex).
  apply filter_In in Hx as [Hx Hid]. apply eqb_eq in Ex.
  rewrite (H x Hx Ex), Z.eqb_refl in Hid. discriminate.
Qed.

(** The refresh of [stateRef.current] changes no dependency of the
    history effect. *)
Lemma deps_refreshed (a : App.State) : deps (refreshed a) = deps a.
Proof. reflexivity. Qed.

Lemma step_speech (a : App.State) (clk : Clock) (e : App.Event) :
  speech (App.step a (clk, e)) = refresh (speech (handle e a)).
Proof. unfold App.step. now rewrite commit_speech. Qed.

(** The history effect and the effect of the hook do not read what the
    other writes: they can be run in either order. *)
Lemma historyEffect_refreshed (clk : Clock) (b : App.State) :
  historyEffect clk (refreshed b) = refreshed (historyEffect clk b).
Proof.
  unfold historyEffect. unfold_app_setters. unfold_setters.
  destruct (negb (isListening (speech b))
            && truthy (finalTranscript (speech b))); [|reflexivity].
  destruct ((0 <? length (trim (finalTranscript (speech b))))
            && negb (isAlreadySaved (trim (finalTranscript (speech b)))
                       (history b))); reflexivity.
Qed.

Lemma flushEffects_refreshed (n : nat) (clk : Clock) (b : App.State) :
  flushEffects n clk (refreshed b) = refreshed (flushEffects n clk b).
Proof.
  revert b. induction n as [|n IH]; intros b; [reflexivity|].
  cbn [flushEffects].
  change (effectDeps (refreshed b)) with (effectDeps b).
  change (deps (refreshed b)) with (deps b).
  destruct (Deps_eqb (effectDeps b) (deps b)); [reflexivity|].
  change (setEffectDeps (deps b) (refreshed b))
    with (refreshed (setEffectDeps (deps b) b)).
  now rewrite historyEffect_refreshed, IH.
Qed.

Lemma step_unfold (a : App.State) (clk : Clock) (e : App.Event) :
  App.step a (clk, e) = refreshed (commit clk (handle e a)).
Proof. unfold App.step, commit. apply flushEffects_refreshed. Qed.

End CommitFacts.

(** C9.  Two terminations in a row: after the second, the history, the
    stored history, the document and everything the hook shows
    ([finalTranscript], [liveTranscript] and the flags) are what they were
    after the first; [finalTranscript] and [liveTranscript] are then the
    trimmed [liveTranscript] the first one read, the one of the state when
    the effect had run, if the first one finalized.  When the first one
    finalizes (it does not restart the engine) the whole state after the
    second is the state after the first.  This holds with a render after
    each termination, from every state in which the flags of
    [stateRef.current] are those of the state while [stopReason] is
    [auto], which are the states the hook can reach and the states in
    which the effect has run; and with no render between the two, from
    every state. *)
Theorem C9_second_termination_changes_nothing :
  (forall (a : App.State) (clk1 clk2 : Clock),
      flagsFreshWhileAuto (speech a) ->
      let a1 := App.step a (clk1, EngineEnd) in
      let a2 := App.step a1 (clk2, EngineEnd) in
      history a2 = history a1 /\
      transcriptHistory a2 = transcriptHistory a1 /\
      finalContent a2 = finalContent a1 /\
      observable (speech a2) = observable (speech a1) /\
      stopReasonRef (speech a2) = stopReasonRef (speech a1) /\
      finalTranscript (speech a2) = finalTranscript (speech a1) /\
      liveTranscript (speech a2) = liveTranscript (speech a1) /\
      (if restarts (speech a) then True
       else finalTranscript (speech a1) =
              trim (liveTranscriptNow (stateRef (speech a))) /\
            liveTranscript (speech a1) =
              trim (liveTranscriptNow (stateRef (speech a))) /\
            (fresh (speech a) ->
             finalTranscript (speech a1) = trim (liveTranscript (speech a)) /\
             liveTranscript (speech a1) = trim (liveTranscript (speech a))) /\
            a2 = a1)) /\
  (forall s : Hook.State,
      (fresh s -> flagsFreshWhileAuto s) /\
      (Hook.reachable s -> flagsFreshWhileAuto s) /\
      let s1 := handleEnd s in
      let s2 := handleEnd s1 in
      observable s2 = observable s1 /\
      stopReasonRef s2 = stopReasonRef s1 /\
      (restarts s = false -> s2 = s1)).
Proof.
  split.
  - intros a clk1 clk2 F a1 a2.
    assert (S1 : speech a1 = refresh (handleEnd (speech a)))
      by (subst a1; apply step_speech).
    assert (R1 : atRest a1) by apply commit_atRest.
    destruct (handleEnd_rendered_twice (speech a) F) as (Ho & Hr & Hall).
    rewrite <- S1 in Ho, Hr, Hall.
    destruct (observable_fields _ _ Ho) as (Hli & Hf & Hl).
    assert (E2 : a2 = setSpeech (refresh (handleEnd (speech a1))) a1).
    { subst a2. unfold App.step. simpl. apply commit_atRest_id.
      unfold atRest, deps in *. unfold_app_setters. unfold_setters.
      rewrite R1. cbn [isListening finalTranscript refresh setStateRef] in Hli, Hf.
      now rewrite Hli, Hf. }
    rewrite E2. unfold_app_setters.
    repeat (split; [first [assumption | reflexivity]|]).
    destruct (restarts (speech a)) eqn:R; [exact I|].
    rewrite S1, (handleEnd_finalize _ R). unfold_setters.
    split; [reflexivity|]. split; [reflexivity|]. split.
    + intros ->. now split.
    + rewrite <- (handleEnd_finalize _ R), <- S1, (Hall eq_refl).
      now destruct a1.
  - intros s. split; [apply flagsFreshWhileAuto_fresh|].
    split; [apply reachable_flagsFreshWhileAuto|].
    destruct (handleEnd_twice s) as (Ho & Hr & _ & _ & Hall).
    now repeat split.
Qed.

Lemma C9_second_termination_changes_nothing_witness :
  let a := Scenario.recorded in
  let a1 := App.step a (Scenario.clock1, EngineEnd) in
  flagsFreshWhileAuto (speech a) /\
  history (App.step a1 (Scenario.clock2, EngineEnd)) = history a1.
Proof.
  intros a a1.
  assert (F : flagsFreshWhileAuto (speech a)) by (intros _; now split).
  split; [exact F|].
  exact (proj1 (proj1 C9_second_termination_changes_nothing a
                  Scenario.clock1 Scenario.clock2 F)).
Defined.

(** C10.  The effect is run after every render in which the listening
    flag, [finalTranscript] or the history array differs from its last
    run, whatever the event was.  So in a state that does not listen and
    has a transcript whose trimmed text is not empty, deleting the entries
    with that trimmed text puts a new entry with the same trimmed text in
    front of what is left.  The recorded session is such a state: its one
    entry is deleted and made again with a new id and date. *)
Theorem C10_deleted_entry_is_saved_again :
  (forall (clk : Clock) (a : App.State),
      commit clk a =
      if Deps_eqb (effectDeps a) (deps a) then a
      else flushEffects 1 clk (historyEffect clk (setEffectDeps (deps a) a))) /\
  (forall (clk : Clock) (a : App.State) (i : Z),
      atRest a ->
      isSupported (speech a) = true ->
      isHistoryVisible a = true ->
      isListening (speech a) = false ->
      truthy (trim (finalTranscript (speech a))) = true ->
      (forall item, In item (history a) ->
                    trim (content item) = trim (finalTranscript (speech a)) ->
                    id item = i) ->
      let a' := App.step a (clk, DeleteTranscript i) in
      isListening (speech a') = false /\
      finalTranscript (speech a') = finalTranscript (speech a) /\
      history a' =
        {| id := now clk; date := localeString clk;
           content := trim (finalTranscript (speech a)) |}
        :: filter (fun item => negb (Z.eqb (id item) i)) (history a)) /\
  (let a := Scenario.recorded in
   let a' := App.step a (Scenario.clock2, DeleteTranscript Scenario.now1) in
   App.reachable a /\
   isListening (speech a) = false /\
   finalTranscript (speech a) = lit "test" /\
   history a =
     [{| id := Scenario.now1; date := Scenario.date1;
         content := lit "test" |}] /\
   isListening (speech a') = false /\
   finalTranscript (speech a') = lit "test" /\
   history a' =
     [{| id := Scenario.now2; date := Scenario.date2;
         content := lit "test" |}]).
Proof.
  split; [|split].
  - intros clk a. unfold commit. simpl.
    destruct (Deps_eqb (effectDeps a) (deps a)); reflexivity.
  - intros clk a i Hrest Hsup Hvis Hl Ht Hid a'. subst a'.
    unfold App.step. simpl. rewrite Hsup, Hvis, commit_speech.
    split; [exact Hl|]. split; [reflexivity|].
    rewrite commit_history.
    assert (D : Deps_eqb (effectDeps (refreshed (handleDeleteTranscript i a)))
                  (deps (refreshed (handleDeleteTranscript i a))) = false).
    { unfold atRest in Hrest. unfold deps in *. unfold_app_setters.
      rewrite Hrest.
      unfold Deps_eqb.
      replace (historyRef a =? S (historyRef a)) with false
        by (symmetry; apply Nat.eqb_neq; lia).
      apply andb_false_r. }
    rewrite D, saveToHistory_cases. unfold_app_setters. unfold_setters.
    unfold saves. rewrite Hl, Ht, (truthy_of_trim _ Ht). simpl.
    now rewrite (unsaved_after_delete _ i (history a) Hid).
  - split; [|vm_compute; repeat split].
    eexists true, None, None, _. reflexivity.
Qed.

Lemma C10_deleted_entry_is_saved_again_witness :
  let a := Scenario.recorded in
  atRest a /\
  history a =
    [{| id := Scenario.now1; date := Scenario.date1;
        content := Scenario.test |}] /\
  history (App.step a (Scenario.clock2, DeleteTranscript Scenario.now1)) =
    [{| id := Scenario.now2; date := Scenario.date2;
        content := Scenario.test |}].
Proof.
  intros a.
  assert (Hrest : atRest a) by reflexivity.
  assert (Hh : history a =
               [{| id := Scenario.now1; date := Scenario.date1;
                   content := Scenario.test |}]) by reflexivity.
  split; [exact Hrest|]. split; [exact Hh|].
  assert (Hid : forall item, In item (history a) ->
                  trim (content item) = trim (finalTranscript (speech a)) ->
                  id item = Scenario.now1).
  { intros item Hin _. rewrite Hh in Hin.
    destruct Hin as [<- | []]. reflexivity. }
  destruct (proj1 (proj2 C10_deleted_entry_is_saved_again)
              Scenario.clock2 a Scenario.now1
              Hrest eq_refl eq_refl eq_refl eq_refl Hid)
    as (_ & _ & H).
  exact H.
Defined.

(* ================================================================== *)
(** ** More about the hook *)
(* ================================================================== *)

Section MoreStringFacts.




End MoreStringFacts.

Section MoreHookFacts.

Lemma run_results_stateRef (evs : list SpeechRecognitionEvent)
    (s : Hook.State) :
  stateRef (Hook.run s (map OnResult evs)) = stateRef s.
Proof.
  revert s. induction evs as [|e evs IH]; intros s; [reflexivity|].
  change (Hook.run s (map OnResult (e :: evs)))
    with (Hook.run (processResults e s) (map OnResult evs)).
  rewrite IH. now destruct (processResults_others e s) as (_&_&_&_&_&_&->).
Qed.

Lemma run_refreshed_final (evs : list SpeechRecognitionEvent)
    (s : Hook.State) :
  finalTranscript (Hook.run s (eachRefreshed evs)) =
  finalTranscript s ++ concat (map finalDelta evs).
Proof.
  revert s. induction evs as [|e evs IH]; intros s.
  - simpl. now rewrite app_nil_r.
  - change (Hook.run s (eachRefreshed (e :: evs)))
      with (Hook.run (processResults e (refresh s)) (eachRefreshed evs)).
    rewrite IH, processResults_final. simpl. now rewrite app_assoc.
Qed.

Lemma eachRefreshed_snoc (evs : list SpeechRecognitionEvent)
    (ev : SpeechRecognitionEvent) :
  eachRefreshed (evs ++ [ev]) = eachRefreshed evs ++ [Refresh; OnResult ev].
Proof. unfold eachRefreshed. now rewrite flat_map_app. Qed.

Lemma unasked_keeps_idle (s : Hook.State) (e : Hook.Event) :
  restarts s = false -> restarts (refresh s) = false -> unasked e = true ->
  restarts (Hook.step s e) = false /\
  restarts (refresh (Hook.step s e)) = false /\
  recognitionRef (Hook.step s e) = recognitionRef s /\
  implb (isListening (Hook.step s e)) (isListening s) = true.
Proof.
  intros R R'. destruct e as [l| | | |ev| |ev| |]; simpl; try discriminate;
    intros _.
  - unfold processResults, restarts in *.
    destruct (resultsLoop _ _ _ _ _). unfold_setters.
    repeat split; [exact R | exact R' | now destruct (isListening s)].
  - rewrite (handleEnd_finalize s R). unfold restarts in *. unfold_setters.
    repeat split; [exact R | exact R' | now destruct (isListening s)].
  - unfold onerror.
    destruct (JsString.eqb (errorCode ev) Literal.aborted).
    + repeat split; [exact R | exact R' | now destruct (isListening s)].
    + repeat split.
  - unfold speakingTimeout, restarts in *.
    destruct (speakingTimeoutRef s); unfold_setters;
      (repeat split; [exact R | exact R' | now destruct (isListening s)]).
  - repeat split; [exact R' | exact R' | now destruct (isListening s)].
Qed.

Lemma flagsConsistent_step (s : Hook.State) (e : Hook.Event) :
  flagsConsistent s -> flagsConsistent (Hook.step s e).
Proof.
  unfold flagsConsistent. intros (Hp & Hu & He).
  destruct e as [l| | | |ev| |ev| |]; simpl.
  - repeat split.
  - unfold stopListening. unfold_setters. repeat split.
  - unfold pauseListening. unfold_setters. repeat split. exact He.
  - unfold resumeListening.
    destruct (truthy (trim (liveTranscriptNow (stateRef s))));
      unfold_setters; repeat split; exact He.
  - unfold processResults. destruct (resultsLoop _ _ _ _ _).
    unfold_setters. now repeat split.
  - unfold handleEnd.
    destruct (StopReason_eqb (stopReasonRef s) auto
              && isListeningNow (stateRef s)
              && negb (isPausedNow (stateRef s)));
      unfold_setters; now repeat split.
  - unfold onerror.
    destruct (JsString.eqb (errorCode ev) Literal.aborted);
      unfold_setters; now repeat split.
  - unfold speakingTimeout.
    destruct (speakingTimeoutRef s); unfold_setters; now repeat split.
  - now repeat split.
Qed.

(** The session part of the next state depends on the session part of
    the state and on [stateRef.current] alone, and so does the next
    [stateRef.current]. *)
Lemma session_step (s1 s2 : Hook.State) (e : Hook.Event) :
  session s1 = session s2 -> stateRef s1 = stateRef s2 ->
  session (Hook.step s1 e) = session (Hook.step s2 e) /\
  stateRef (Hook.step s1 e) = stateRef (Hook.step s2 e).
Proof.
  unfold session. intros H Href.
  injection H as Hl Hp Hlive Hfin Herr Hr.
  destruct e as [l| | | |ev| |ev| |]; simpl.
  - now split.
  - unfold stopListening. unfold_setters. split; congruence.
  - unfold pauseListening. unfold_setters. split; congruence.
  - unfold resumeListening. rewrite Href.
    destruct (truthy (trim (liveTranscriptNow (stateRef s2))));
      unfold_setters; split; congruence.
  - unfold processResults. rewrite Href.
    destruct (resultsLoop _ _ _ _ _). unfold_setters. split; congruence.
  - unfold handleEnd. rewrite Hr, Href.
    destruct (StopReason_eqb (stopReasonRef s2) auto
              && isListeningNow (stateRef s2)
              && negb (isPausedNow (stateRef s2)));
      unfold_setters; split; congruence.
  - unfold onerror.
    destruct (JsString.eqb (errorCode ev) Literal.aborted);
      unfold_setters; split; congruence.
  - unfold speakingTimeout.
    destruct (speakingTimeoutRef s1), (speakingTimeoutRef s2);
      unfold_setters; split; congruence.
  - split; congruence.
Qed.

Lemma session_run (es : list Hook.Event) (s1 s2 : Hook.State) :
  session s1 = session s2 -> stateRef s1 = stateRef s2 ->
  session (Hook.run s1 es) = session (Hook.run s2 es).
Proof.
  revert s1 s2. induction es as [|e es IH]; intros s1 s2 H Href; [exact H|].
  simpl. destruct (session_step s1 s2 e H Href) as (H' & Href').
  now apply IH.
Qed.

Lemma engineConfigured_step (l : jsstring) (s : Hook.State) (e : Hook.Event) :
  engineConfigured l s ->
  engineConfigured (match e with Start l' => l' | _ => l end) (Hook.step s e)
  /\ isSupported (Hook.step s e) = isSupported s.
Proof.
  unfold engineConfigured, isSupported. intros H.
  destruct e as [l'| | | |ev| |ev| |]; simpl.
  - unfold startListening. unfold_setters.
    destruct (recognitionRef s) as [r|]; simpl; [|now split].
    destruct H as (Hc & Hi & _). now repeat split.
  - unfold stopListening. unfold_setters.
    destruct (recognitionRef s) as [r|]; simpl; now split.
  - unfold pauseListening. unfold_setters.
    destruct (recognitionRef s) as [r|]; simpl; now split.
  - unfold resumeListening.
    destruct (truthy (trim (liveTranscriptNow (stateRef s))));
      unfold_setters; destruct (recognitionRef s) as [r|]; simpl; now split.
  - unfold processResults. destruct (resultsLoop _ _ _ _ _).
    unfold_setters. now split.
  - unfold handleEnd.
    destruct (StopReason_eqb (stopReasonRef s) auto
              && isListeningNow (stateRef s)
              && negb (isPausedNow (stateRef s))); unfold_setters;
      destruct (recognitionRef s) as [r|]; simpl; now split.
  - unfold onerror.
    destruct (JsString.eqb (errorCode ev) Literal.aborted);
      unfold_setters; now split.
  - unfold speakingTimeout.
    destruct (speakingTimeoutRef s); unfold_setters; now split.
  - now split.
Qed.

End MoreHookFacts.

(** X1.  Batches add up when [stateRef.current] is refreshed before
    each of them: [finalTranscript] is then the old one followed by the
    final texts of all the batches, in order, and [liveTranscript] is that
    followed by the interim text of the last batch only.  Batches that
    come with no refresh between them do not add up: [finalTranscript] is
    the one of [stateRef.current] followed by the final text of the last
    batch alone, and [liveTranscript] is that followed by its interim
    text. *)
Theorem X1_batches_accumulate_final_replace_interim :
  forall (s : Hook.State) (evs : list SpeechRecognitionEvent)
         (ev : SpeechRecognitionEvent),
    finalTranscript (Hook.run s (eachRefreshed evs)) =
      finalTranscript s ++ concat (map finalDelta evs) /\
    liveTranscript (Hook.run s (eachRefreshed (evs ++ [ev]))) =
      finalTranscript s ++ concat (map finalDelta (evs ++ [ev]))
        ++ interimText ev /\
    finalTranscript (Hook.run s (map OnResult (evs ++ [ev]))) =
      finalTranscriptNow (stateRef s) ++ finalDelta ev /\
    liveTranscript (Hook.run s (map OnResult (evs ++ [ev]))) =
      finalTranscriptNow (stateRef s) ++ finalDelta ev ++ interimText ev.
Proof.
  intros s evs ev. split; [apply run_refreshed_final|]. split.
  - rewrite eachRefreshed_snoc, run_app.
    change (Hook.run ?x [Refresh; OnResult ev])
      with (processResults ev (refresh x)).
    rewrite processResults_live. cbn [refresh setStateRef stateRef
                                      finalTranscriptNow].
    rewrite run_refreshed_final, map_app, concat_app. simpl.
    rewrite app_nil_r. now rewrite <- !app_assoc.
  - rewrite map_app. cbn [map]. rewrite run_snoc. simpl.
    rewrite processResults_live, processResults_final, run_results_stateRef.
    now split.
Qed.

(** X2.  A batch whose [resultIndex] is not below the number of slots
    adds nothing: [finalTranscript] becomes the one the batch reads (the
    one of [stateRef.current]; the one of the state, unchanged, once the
    effect has run), and [liveTranscript] becomes the same, so interim
    text shown before is dropped; the speaking indicator is switched on
    all the same. *)
Theorem X2_batch_without_slots_drops_interim :
  forall (ev : SpeechRecognitionEvent) (s : Hook.State),
    length (results ev) <= resultIndex ev ->
    finalTranscript (processResults ev s) = finalTranscriptNow (stateRef s) /\
    liveTranscript (processResults ev s) = finalTranscriptNow (stateRef s) /\
    isSpeaking (processResults ev s) = true /\
    finalTranscript (processResults ev (refresh s)) = finalTranscript s /\
    liveTranscript (processResults ev (refresh s)) = finalTranscript s /\
    isSpeaking (processResults ev (refresh s)) = true.
Proof.
  intros ev s H.
  rewrite !processResults_live, !processResults_final.
  unfold finalDelta, interimText. rewrite skipn_all2 by exact H.
  simpl. rewrite !app_nil_r.
  repeat split;
    unfold processResults; destruct (resultsLoop _ _ _ _ _); reflexivity.
Qed.

Lemma X2_batch_without_slots_drops_interim_witness :
  let s :=
    processResults
      {| resultIndex := 0; results := [slot false Scenario.test] |}
      (Hook.step (Hook.mount true) (Start Literal.pt_BR)) in
  liveTranscript s = Scenario.test /\
  liveTranscript
    (processResults
       {| resultIndex := 1; results := [slot false Scenario.test] |}
       (refresh s)) = finalTranscript s.
Proof.
  intros s. split; [reflexivity|].
  exact (proj1 (proj2 (proj2 (proj2 (proj2
           (X2_batch_without_slots_drops_interim
              {| resultIndex := 1; results := [slot false Scenario.test] |}
              s (le_n 1))))))).
Defined.



(** X4.  While a termination would not restart the engine (not
    listening, or paused, or stopped by the user), whether or not the
    effect refreshes [stateRef.current] first, no callback of the engine
    or of the timer and no refresh makes the hook call the engine, none
    brings that state to an end, and none sets the listening flag. *)
Theorem X4_callbacks_never_wake_the_engine :
  forall (s : Hook.State) (es : list Hook.Event),
    restarts s = false ->
    restarts (refresh s) = false ->
    forallb unasked es = true ->
    recognitionRef (Hook.run s es) = recognitionRef s /\
    restarts (Hook.run s es) = false /\
    restarts (refresh (Hook.run s es)) = false /\
    implb (isListening (Hook.run s es)) (isListening s) = true.
Proof.
  intros s es. revert s. induction es as [|e es IH]; intros s R R' H.
  - simpl. repeat split; [exact R | exact R' | now destruct (isListening s)].
  - simpl in H. apply andb_true_iff in H as [He Hes].
    destruct (unasked_keeps_idle s e R R' He) as (R1 & R1' & Hr & Hl).
    destruct (IH _ R1 R1' Hes) as (Hr2 & R2 & R2' & Hl2).
    simpl. fold (Hook.run (Hook.step s e) es).
    rewrite Hr2, Hr. repeat split; [exact R2 | exact R2' |].
    destruct (isListening (Hook.run (Hook.step s e) es)),
      (isListening (Hook.step s e)), (isListening s);
      try reflexivity; discriminate.
Qed.

Lemma X4_callbacks_never_wake_the_engine_witness :
  recognitionRef
    (Hook.run (pauseListening Scenario.heard)
       [OnEnd; OnError {| errorCode := Scenario.test |}; Refresh; OnEnd;
        OnResult {| resultIndex := 0; results := [slot true Scenario.hello] |};
        SpeakingTimeout; Refresh; OnEnd]) =
  recognitionRef (pauseListening Scenario.heard).
Proof.
  exact (proj1 (X4_callbacks_never_wake_the_engine
                  (pauseListening Scenario.heard)
                  [OnEnd; OnError {| errorCode := Scenario.test |}; Refresh;
                   OnEnd;
                   OnResult {| resultIndex := 0;
                               results := [slot true Scenario.hello] |};
                   SpeakingTimeout; Refresh; OnEnd]
                  eq_refl eq_refl eq_refl)).
Defined.

(** X5.  In every state the hook can reach: the paused flag is set
    exactly when [stopReason] is [paused]; when [stopReason] is [user]
    the hook is not listening; and while it is listening no error is
    shown. *)
Theorem X5_flags_agree_with_stopReason :
  forall s : Hook.State,
    Hook.reachable s ->
    isPaused s = StopReason_eqb (stopReasonRef s) paused /\
    StopReason_eqb (stopReasonRef s) user && isListening s = false /\
    isListening s && match error s with Some _ => true | None => false end = false.
Proof.
  apply (reachable_invariant flagsConsistent).
  - intros supported. repeat split.
  - apply flagsConsistent_step.
Qed.

Lemma X5_flags_agree_with_stopReason_witness :
  isPaused (Hook.step Scenario.heard Pause) =
  StopReason_eqb (stopReasonRef (Hook.step Scenario.heard Pause)) paused.
Proof.
  refine (proj1 (X5_flags_agree_with_stopReason
                   (Hook.step Scenario.heard Pause) _)).
  exists true,
    [Start Scenario.en_US;
     OnResult {| resultIndex := 0; results := [slot true Scenario.hello] |};
     Pause].
  reflexivity.
Defined.

(** X6.  [startListening] forgets the session before it: whatever the
    state it is called in, the flags, the transcripts, the error and
    [stopReason] after the call, the render it causes and any further
    events are the same. *)
Theorem X6_start_forgets_previous_session :
  forall (l : jsstring) (s1 s2 : Hook.State) (es : list Hook.Event),
    session (Hook.run (Hook.step s1 (Start l)) es) =
    session (Hook.run (Hook.step s2 (Start l)) es).
Proof.
  intros l s1 s2 es. apply session_run; reflexivity.
Qed.

(** X7.  From the mount on the hook has an engine exactly when the
    browser supports one, and that engine stays continuous, keeps
    reporting interim results, and has the language of the latest
    [startListening] ("pt-BR" before the first). *)
Theorem X7_engine_configuration :
  forall (supported : bool) (es : list Hook.Event),
    isSupported (Hook.run (Hook.mount supported) es) = supported /\
    engineConfigured (lastLang es) (Hook.run (Hook.mount supported) es).
Proof.
  intros supported es. induction es as [|e es (IHs & IHc)] using rev_ind.
  - destruct supported; simpl; unfold engineConfigured; simpl; now repeat split.
  - rewrite run_snoc. unfold lastLang. rewrite fold_left_app. simpl.
    fold (lastLang es).
    destruct (engineConfigured_step (lastLang es) _ e IHc) as (Hc & Hs).
    split; [now rewrite Hs | exact Hc].
Qed.

(* ================================================================== *)
(** ** More about [App] *)
(* ================================================================== *)

Section MoreAppFacts.

Lemma app_run_invariant (P : App.State -> Prop) :
  (forall a ev, P a -> P (App.step a ev)) ->
  forall evs a, P a -> P (App.run a evs).
Proof.
  intros Hstep evs. induction evs as [|ev evs IH]; intros a Ha.
  - exact Ha.
  - simpl. apply IH, Hstep, Ha.
Qed.

Lemma app_reachable_invariant (P : App.State -> Prop) :
  (forall supported saved auto, P (App.mount supported saved auto)) ->
  (forall a ev, P a -> P (App.step a ev)) ->
  forall a, App.reachable a -> P a.
Proof.
  intros Hinit Hstep a (supported & saved & auto & evs & ->).
  apply app_run_invariant; [exact Hstep | apply Hinit].
Qed.

Lemma exceptDeps_fields (a b : App.State) :
  exceptDeps a = exceptDeps b ->
  speech a = speech b /\ finalContent a = finalContent b /\
  selectedLang a = selectedLang b /\ history a = history b /\
  historyRef a = historyRef b /\ isHistoryVisible a = isHistoryVisible b /\
  transcriptHistory a = transcriptHistory b.
Proof.
  unfold exceptDeps. intros H. injection H as H1 H2 H3 H4 H5 H6 H7.
  now repeat split.
Qed.

Lemma historyEffect_ignores_deps (clk : Clock) (d : Deps) (a : App.State) :
  exceptDeps (historyEffect clk (setEffectDeps d a)) =
  exceptDeps (historyEffect clk a).
Proof.
  unfold historyEffect. unfold_app_setters.
  destruct (negb (isListening (speech a))
            && truthy (finalTranscript (speech a))); [|reflexivity].
  destruct ((0 <? length (trim (finalTranscript (speech a))))
            && negb (isAlreadySaved (trim (finalTranscript (speech a)))
                       (history a))); reflexivity.
Qed.

Lemma effect_saves_nothing_more (clk : Clock) (a : App.State) :
  saves (isListening (speech (historyEffect clk a)))
    (finalTranscript (speech (historyEffect clk a)))
    (history (historyEffect clk a)) = false.
Proof.
  rewrite historyEffect_speech, historyEffect_history.
  destruct (isListening (speech a)) eqn:L; [reflexivity|].
  now apply saved_after_save.
Qed.

Lemma historyEffect_finalContent (clk : Clock) (a : App.State) :
  finalContent (historyEffect clk a) =
  if negb (isListening (speech a)) && truthy (finalTranscript (speech a))
  then finalTranscript (speech a) else finalContent a.
Proof.
  unfold historyEffect.
  destruct (negb (isListening (speech a))
            && truthy (finalTranscript (speech a))); [|reflexivity].
  destruct ((0 <? length (trim (finalTranscript (speech a))))
            && negb (isAlreadySaved (trim (finalTranscript (speech a)))
                       (history a))); reflexivity.
Qed.

(** The effect changes nothing when the transcript is saved and shown. *)
Lemma effect_idle (clk : Clock) (b : App.State) :
  saves (isListening (speech b)) (finalTranscript (speech b)) (history b)
    = false ->
  (negb (isListening (speech b)) && truthy (finalTranscript (speech b)) = true
   -> finalContent b = finalTranscript (speech b)) ->
  exceptDeps (historyEffect clk b) = exceptDeps b.
Proof.
  intros S Hf. unfold historyEffect, saves in *. rewrite nonempty_length.
  destruct (negb (isListening (speech b))
            && truthy (finalTranscript (speech b))); [|reflexivity].
  simpl in S. rewrite S.
  unfold exceptDeps. unfold_app_setters. now rewrite Hf.
Qed.

(** A second run of the effect changes nothing. *)
Lemma historyEffect_again (clk clk' : Clock) (a : App.State) :
  exceptDeps (historyEffect clk' (historyEffect clk a)) =
  exceptDeps (historyEffect clk a).
Proof.
  apply effect_idle; [apply effect_saves_nothing_more|].
  rewrite historyEffect_speech, historyEffect_finalContent.
  now intros ->.
Qed.

(** What the renders after a handler leave: the state as it is when no
    dependency changed, and one run of the effect otherwise. *)
Lemma commit_exceptDeps (clk : Clock) (b : App.State) :
  exceptDeps (commit clk b) =
  if Deps_eqb (effectDeps b) (deps b) then exceptDeps b
  else exceptDeps (historyEffect clk b).
Proof.
  unfold commit. simpl.
  destruct (Deps_eqb (effectDeps b) (deps b)); [reflexivity|].
  fold (render clk b).
  destruct (Deps_eqb (effectDeps (render clk b)) (deps (render clk b))).
  - apply historyEffect_ignores_deps.
  - rewrite historyEffect_ignores_deps. unfold render.
    rewrite historyEffect_again. apply historyEffect_ignores_deps.
Qed.

Lemma handle_effectDeps (e : App.Event) (a : App.State) :
  effectDeps (handle e a) = effectDeps a.
Proof.
  destruct e; simpl; try reflexivity;
    destruct (isSupported (speech a)); try reflexivity; simpl;
    unfold handleStartStop, handlePauseResume;
    repeat match goal with
           | |- context [if ?c then _ else _] => destruct c
           end; reflexivity.
Qed.

(** A handler leaves the history and its stored copy alone or installs
    a new array. *)
Lemma handle_history (e : App.Event) (a : App.State) :
  (history (handle e a) = history a /\
   historyRef (handle e a) = historyRef a /\
   transcriptHistory (handle e a) = transcriptHistory a) \/
  historyRef (handle e a) = S (historyRef a).
Proof.
  destruct e; simpl; try (left; now repeat split);
    destruct (isSupported (speech a)); try (left; now repeat split); simpl;
    unfold handleStartStop, handlePauseResume;
    repeat match goal with
           | |- context [if ?c then _ else _] => destruct c
           end;
    try (left; now repeat split); now right.
Qed.

(** After the renders the transcript of a finished session is saved. *)
Lemma commit_saved (clk : Clock) (b : App.State) :
  (atRest b ->
   saves (isListening (speech b)) (finalTranscript (speech b)) (history b)
   = false) ->
  saves (isListening (speech (commit clk b)))
    (finalTranscript (speech (commit clk b))) (history (commit clk b)) = false.
Proof.
  intros H. pose proof (commit_exceptDeps clk b) as E.
  destruct (Deps_eqb (effectDeps b) (deps b)) eqn:D;
    apply exceptDeps_fields in E as (Hs & _ & _ & Hh & _); rewrite Hs, Hh.
  - apply H. now apply Deps_eqb_eq.
  - apply effect_saves_nothing_more.
Qed.

Lemma atRest_handle_same_history (e : App.Event) (a : App.State) :
  atRest a -> atRest (handle e a) ->
  isListening (speech (handle e a)) = isListening (speech a) /\
  finalTranscript (speech (handle e a)) = finalTranscript (speech a) /\
  history (handle e a) = history a.
Proof.
  unfold atRest. intros Ra Rb. rewrite handle_effectDeps, Ra in Rb.
  unfold deps in Rb. injection Rb as Hl Hf Hr.
  repeat split; try congruence.
  destruct (handle_history e a) as [(Hh & _) | Hb]; [exact Hh | lia].
Qed.

Lemma saves_distinct (clk : Clock) (l : bool) (c : jsstring)
    (h : list Transcript) :
  NoDup (map trimmedContentOf h) ->
  NoDup (map trimmedContentOf (saveToHistory clk l c h)).
Proof.
  intros ND. rewrite saveToHistory_cases.
  destruct (saves l c h) eqn:S; [|exact ND].
  unfold saves in S. apply andb_true_iff in S as [_ S].
  apply negb_true_iff in S.
  simpl. constructor; [|exact ND].
  unfold trimmedContentOf at 1. simpl. rewrite trim_idem.
  intros HIn. apply isAlreadySaved_In in HIn. congruence.
Qed.

Lemma filter_distinct (f : Transcript -> bool) (h : list Transcript) :
  NoDup (map trimmedContentOf h) ->
  NoDup (map trimmedContentOf (filter f h)).
Proof.
  induction h as [|x h IH]; simpl; intros ND; [constructor|].
  inversion ND as [|? ? Hx Hh]; subst.
  destruct (f x); simpl; [|now apply IH].
  constructor; [|now apply IH].
  intros HIn. apply Hx. apply in_map_iff in HIn as (y & Ey & Hy).
  apply filter_In in Hy as [Hy _]. apply in_map_iff. now exists y.
Qed.

Lemma historyEffect_stored (clk : Clock) (a : App.State) :
  transcriptHistory (historyEffect clk a) =
  if saves (isListening (speech a)) (finalTranscript (speech a)) (history a)
  then Some (newTranscript clk (finalTranscript (speech a)) :: history a)
  else transcriptHistory a.
Proof.
  unfold historyEffect, saves. rewrite nonempty_length.
  destruct (negb (isListening (speech a))
            && truthy (finalTranscript (speech a))); [|reflexivity].
  simpl.
  destruct (truthy (trim (finalTranscript (speech a)))
            && negb (isAlreadySaved (trim (finalTranscript (speech a)))
                       (history a))); reflexivity.
Qed.

Lemma historyEffect_others (clk : Clock) (a : App.State) :
  selectedLang (historyEffect clk a) = selectedLang a /\
  isHistoryVisible (historyEffect clk a) = isHistoryVisible a.
Proof.
  unfold historyEffect.
  destruct (negb (isListening (speech a))
            && truthy (finalTranscript (speech a))); [|now split].
  destruct ((0 <? length (trim (finalTranscript (speech a))))
            && negb (isAlreadySaved (trim (finalTranscript (speech a)))
                       (history a))); now split.
Qed.

Lemma commit_others (clk : Clock) (b : App.State) :
  selectedLang (commit clk b) = selectedLang b /\
  isHistoryVisible (commit clk b) = isHistoryVisible b.
Proof.
  pose proof (commit_exceptDeps clk b) as E.
  destruct (Deps_eqb (effectDeps b) (deps b));
    apply exceptDeps_fields in E as (_ & _ & Hl & _ & _ & Hv & _);
    rewrite Hl, Hv; [now split | apply historyEffect_others].
Qed.

End MoreAppFacts.

Section AppInvariants.

(** Every event of [App] ends with the effect of the hook:
    [stateRef.current] is up to date in every state [App] can reach. *)
Lemma reachable_fresh (a : App.State) : App.reachable a -> fresh (speech a).
Proof.
  apply (app_reachable_invariant (fun a => fresh (speech a))).
  - intros supported saved auto. reflexivity.
  - intros b [clk e] _. rewrite step_speech. apply fresh_refresh.
Qed.

Lemma refreshed_fresh (b : App.State) : fresh (speech b) -> refreshed b = b.
Proof.
  intros F. unfold refreshed. rewrite (refresh_fresh _ F). now destruct b.
Qed.

Lemma reachable_atRest (a : App.State) : App.reachable a -> atRest a.
Proof.
  apply app_reachable_invariant.
  - intros supported saved auto. reflexivity.
  - intros b [clk e] _. apply commit_atRest.
Qed.

Lemma reachable_saved (a : App.State) :
  App.reachable a ->
  saves (isListening (speech a)) (finalTranscript (speech a)) (history a)
  = false.
Proof.
  intros H.
  enough (atRest a /\
          saves (isListening (speech a)) (finalTranscript (speech a))
            (history a) = false) by tauto.
  revert a H. apply app_reachable_invariant.
  - intros supported saved auto. split; reflexivity.
  - intros a [clk e] (Ra & Sa). split; [apply commit_atRest|].
    rewrite step_unfold. simpl. apply commit_saved. intros Rb.
    destruct (atRest_handle_same_history e a Ra Rb) as (Hl & Hf & Hh).
    now rewrite Hl, Hf, Hh.
Qed.

Lemma handle_mirrored (e : App.Event) (a : App.State) :
  history a = storedHistory a ->
  history (handle e a) = storedHistory (handle e a).
Proof.
  unfold storedHistory. intros H.
  destruct e; simpl; try exact H;
    destruct (isSupported (speech a)); try exact H; simpl;
    unfold handleStartStop, handlePauseResume;
    repeat match goal with
           | |- context [if ?c then _ else _] => destruct c
           end; try exact H; reflexivity.
Qed.

Lemma commit_mirrored (clk : Clock) (b : App.State) :
  history b = storedHistory b ->
  history (commit clk b) = storedHistory (commit clk b).
Proof.
  intros H. pose proof (commit_exceptDeps clk b) as E. unfold storedHistory.
  destruct (Deps_eqb (effectDeps b) (deps b));
    apply exceptDeps_fields in E as (_ & _ & _ & Hh & _ & _ & Ht);
    rewrite Hh, Ht; [exact H|].
  rewrite historyEffect_history, historyEffect_stored, saveToHistory_cases.
  destruct (saves _ _ _); [reflexivity | exact H].
Qed.

Lemma handle_subset (e : App.Event) (a : App.State) (t : Transcript) :
  In t (history (handle e a)) -> In t (history a).
Proof.
  destruct e; simpl; try tauto;
    destruct (isSupported (speech a)); try tauto; simpl;
    unfold handleStartStop, handlePauseResume;
    repeat match goal with
           | |- context [if ?c then _ else _] => destruct c
           end; unfold_app_setters; try tauto.
  - intros H. now apply filter_In in H.
  - intros [].
Qed.

Lemma handle_distinct (e : App.Event) (a : App.State) :
  NoDup (map trimmedContentOf (history a)) ->
  NoDup (map trimmedContentOf (history (handle e a))).
Proof.
  intros H.
  destruct e; simpl; try exact H;
    destruct (isSupported (speech a)); try exact H; simpl;
    unfold handleStartStop, handlePauseResume;
    repeat match goal with
           | |- context [if ?c then _ else _] => destruct c
           end; unfold_app_setters; try exact H.
  - now apply filter_distinct.
  - constructor.
Qed.

Lemma commit_distinct (clk : Clock) (b : App.State) :
  NoDup (map trimmedContentOf (history b)) ->
  NoDup (map trimmedContentOf (history (commit clk b))).
Proof.
  intros H. pose proof (commit_exceptDeps clk b) as E.
  destruct (Deps_eqb (effectDeps b) (deps b));
    apply exceptDeps_fields in E as (_ & _ & _ & Hh & _);
    rewrite Hh; [exact H|].
  rewrite historyEffect_history. now apply saves_distinct.
Qed.

(** What a handler does to the hook: an operation of the hook, or
    nothing. *)
Lemma handle_speech (e : App.Event) (a : App.State) :
  refresh (speech (handle e a)) = refresh (speech a) \/
  exists h,
    refresh (speech (handle e a)) = refresh (Hook.step (speech a) h) /\
    match h with
    | Start l => isListening (speech a) = false /\ l = selectedLang a
    | Stop => isListening (speech a) = true
    | Pause => isListening (speech a) = true /\ isPaused (speech a) = false
    | Resume => isListening (speech a) = true /\ isPaused (speech a) = true
    | _ => True
    end.
Proof.
  destruct e; simpl; try (now left);
    try (right; eexists (OnResult _); now split);
    try (right; exists OnEnd; now split);
    try (right; eexists (OnError _); now split);
    try (right; exists SpeakingTimeout; now split);
    destruct (isSupported (speech a)); try (now left); simpl;
    unfold handleStartStop, handlePauseResume;
    repeat match goal with
           | |- context [if ?c then _ else _] => destruct c eqn:?
           end; try (now left).
  - right. exists Stop. now split.
  - right. exists (Start (selectedLang a)). now split.
  - right. exists Resume. now split.
  - right. exists Pause. now split.
Qed.

Lemma handle_selectedLang (e : App.Event) (a : App.State) :
  selectedLang (handle e a) = selectedLang a \/
  isListening (speech a) = false /\ speech (handle e a) = speech a.
Proof.
  destruct e; simpl; try (now left);
    destruct (isSupported (speech a)); try (now left); simpl;
    unfold handleStartStop, handlePauseResume;
    repeat match goal with
           | |- context [if ?c then _ else _] => destruct c eqn:?
           end; try (now left).
  right. now split.
Qed.

(** The language of the engine changes only at a start. *)
Lemma step_engineLang (s : Hook.State) (h : Hook.Event) :
  engineLang (Hook.step s h) =
  match h with
  | Start l => option_map (fun _ => l) (recognitionRef s)
  | _ => engineLang s
  end.
Proof.
  unfold engineLang.
  destruct h as [l| | | |ev| |ev| |]; simpl.
  - unfold startListening. unfold_setters. now destruct (recognitionRef s).
  - unfold stopListening. unfold_setters. now destruct (recognitionRef s).
  - unfold pauseListening. unfold_setters. now destruct (recognitionRef s).
  - unfold resumeListening.
    destruct (truthy (trim (liveTranscriptNow (stateRef s)))); unfold_setters;
      now destruct (recognitionRef s).
  - unfold processResults. now destruct (resultsLoop _ _ _ _ _).
  - unfold handleEnd.
    destruct (StopReason_eqb (stopReasonRef s) auto
              && isListeningNow (stateRef s)
              && negb (isPausedNow (stateRef s))); unfold_setters;
      now destruct (recognitionRef s).
  - unfold onerror.
    now destruct (JsString.eqb (errorCode ev) Literal.aborted).
  - unfold speakingTimeout. now destruct (speakingTimeoutRef s).
  - reflexivity.
Qed.

End AppInvariants.

Section AppInvariantsOfTheHook.

Lemma step_isSupported (s : Hook.State) (h : Hook.Event) :
  isSupported (Hook.step s h) = isSupported s.
Proof.
  unfold isSupported.
  destruct h as [l| | | |ev| |ev| |]; simpl.
  - unfold startListening. unfold_setters. now destruct (recognitionRef s).
  - unfold stopListening. unfold_setters. now destruct (recognitionRef s).
  - unfold pauseListening. unfold_setters. now destruct (recognitionRef s).
  - unfold resumeListening.
    destruct (truthy (trim (liveTranscriptNow (stateRef s)))); unfold_setters;
      now destruct (recognitionRef s).
  - unfold processResults. now destruct (resultsLoop _ _ _ _ _).
  - unfold handleEnd.
    destruct (StopReason_eqb (stopReasonRef s) auto
              && isListeningNow (stateRef s)
              && negb (isPausedNow (stateRef s))); unfold_setters;
      now destruct (recognitionRef s).
  - unfold onerror.
    now destruct (JsString.eqb (errorCode ev) Literal.aborted).
  - unfold speakingTimeout. now destruct (speakingTimeoutRef s).
  - reflexivity.
Qed.

(** Only a start sets the listening flag; a pause sets the paused flag
    and nothing else does. *)
Lemma step_flags (s : Hook.State) (h : Hook.Event) :
  (isListening (Hook.step s h) = true ->
   isListening s = true \/ exists l, h = Start l) /\
  (isPaused (Hook.step s h) = true ->
   (isPaused s = true /\ isListening (Hook.step s h) = isListening s)
   \/ (h = Pause /\ isListening (Hook.step s h) = isListening s)).
Proof.
  destruct h as [l| | | |ev| |ev| |]; simpl.
  - split; [right; now exists l | discriminate].
  - split; discriminate.
  - split; [now left | right; now split].
  - unfold resumeListening.
    destruct (truthy (trim (liveTranscriptNow (stateRef s)))); unfold_setters;
      (split; [now left | discriminate]).
  - unfold processResults. destruct (resultsLoop _ _ _ _ _). unfold_setters.
    split; [now left | left; now split].
  - unfold handleEnd.
    destruct (StopReason_eqb (stopReasonRef s) auto
              && isListeningNow (stateRef s)
              && negb (isPausedNow (stateRef s))); unfold_setters;
      (split; [now left | left; now split]).
  - unfold onerror.
    destruct (JsString.eqb (errorCode ev) Literal.aborted); unfold_setters.
    + split; [now left | left; now split].
    + split; discriminate.
  - unfold speakingTimeout.
    destruct (speakingTimeoutRef s); unfold_setters;
      (split; [now left | left; now split]).
  - split; [now left | left; now split].
Qed.

Lemma isListening_refresh (s : Hook.State) :
  isListening (refresh s) = isListening s.
Proof. reflexivity. Qed.

Lemma isPaused_refresh (s : Hook.State) : isPaused (refresh s) = isPaused s.
Proof. reflexivity. Qed.

Lemma finalTranscript_refresh (s : Hook.State) :
  finalTranscript (refresh s) = finalTranscript s.
Proof. reflexivity. Qed.

Lemma liveTranscript_refresh (s : Hook.State) :
  liveTranscript (refresh s) = liveTranscript s.
Proof. reflexivity. Qed.

Lemma engineLang_refresh (s : Hook.State) :
  engineLang (refresh s) = engineLang s.
Proof. reflexivity. Qed.

Lemma isSupported_refresh (s : Hook.State) :
  isSupported (refresh s) = isSupported s.
Proof. reflexivity. Qed.

Lemma step_others (a : App.State) (clk : Clock) (e : App.Event) :
  selectedLang (App.step a (clk, e)) = selectedLang (handle e a) /\
  isHistoryVisible (App.step a (clk, e)) = isHistoryVisible (handle e a).
Proof. rewrite step_unfold. apply commit_others. Qed.

End AppInvariantsOfTheHook.

(** X8.  In every state [App] can reach, when the hook is not listening
    and the trimmed [finalTranscript] is not empty, the history has an
    entry whose trimmed content is that text: a finished transcript is
    never missing from the history. *)
Theorem X8_finished_transcript_is_in_history :
  forall a : App.State,
    App.reachable a ->
    isListening (speech a) = false ->
    truthy (trim (finalTranscript (speech a))) = true ->
    isAlreadySaved (trim (finalTranscript (speech a))) (history a) = true.
Proof.
  intros a Hr Hl Ht. pose proof (reachable_saved a Hr) as S.
  unfold saves in S. rewrite Hl, Ht, (truthy_of_trim _ Ht) in S.
  simpl in S. now apply negb_false_iff in S.
Qed.

Lemma X8_finished_transcript_is_in_history_witness :
  isAlreadySaved (trim (finalTranscript (speech Scenario.recorded)))
    (history Scenario.recorded) = true.
Proof.
  refine (X8_finished_transcript_is_in_history Scenario.recorded
            _ eq_refl eq_refl).
  eexists true, None, None, _. reflexivity.
Defined.

(** X9.  In every state [App] can reach the history shown is the one
    in [localStorage]: the list stored under "transcriptHistory", or the
    empty list when the item is absent. *)
Theorem X9_history_is_what_is_stored :
  forall a : App.State,
    App.reachable a -> history a = storedHistory a.
Proof.
  apply app_reachable_invariant.
  - intros supported [h|] auto; reflexivity.
  - intros a [clk e] H. rewrite step_unfold. simpl.
    now apply commit_mirrored, handle_mirrored.
Qed.

Lemma X9_history_is_what_is_stored_witness :
  history Scenario.recorded = storedHistory Scenario.recorded.
Proof.
  refine (X9_history_is_what_is_stored Scenario.recorded _).
  eexists true, None, None, _. reflexivity.
Defined.

(** X10.  When the history loaded at the mount has no two entries with
    the same trimmed content (an absent history has none), no sequence of
    events leads to a history that has two. *)
Theorem X10_history_contents_stay_distinct :
  forall (supported : bool) (saved : option (list Transcript))
         (auto : option jsstring) (evs : list (Clock * App.Event)),
    NoDup (map trimmedContentOf
             (match saved with Some h => h | None => [] end)) ->
    NoDup (map trimmedContentOf
             (history (App.run (App.mount supported saved auto) evs))).
Proof.
  intros supported saved auto evs H.
  apply (app_run_invariant
           (fun a => NoDup (map trimmedContentOf (history a)))).
  - intros a [clk e] Ha. rewrite step_unfold. simpl.
    now apply commit_distinct, handle_distinct.
  - exact H.
Qed.

Lemma X10_history_contents_stay_distinct_witness :
  NoDup (map trimmedContentOf
           (history
              (App.run (App.mount true None None)
                 [ (Scenario.clock1, ClickStartStop);
                   (Scenario.clock1,
                    EngineResult {| resultIndex := 0;
                                    results := [slot true Scenario.test] |});
                   (Scenario.clock1, ClickStartStop);
                   (Scenario.clock1, EngineEnd);
                   (Scenario.clock2, EngineEnd) ]))).
Proof.
  apply X10_history_contents_stay_distinct. constructor.
Defined.

(** X11.  Driven through the buttons of [App], the hook is paused only
    while it is listening: "Pausado..." is never shown for a session that
    has stopped. *)
Theorem X11_paused_only_while_listening :
  forall a : App.State,
    App.reachable a ->
    isPaused (speech a) = true -> isListening (speech a) = true.
Proof.
  apply (app_reachable_invariant
           (fun a => isPaused (speech a) = true ->
                     isListening (speech a) = true)).
  - intros supported saved auto. discriminate.
  - intros a [clk e] IH. rewrite !step_speech.
    destruct (handle_speech e a) as [-> | (h & -> & G)]; [exact IH|].
    rewrite !isListening_refresh, !isPaused_refresh.
    intros P. destruct (proj2 (step_flags (speech a) h) P)
      as [(Pa & ->) | (-> & ->)].
    + exact (IH Pa).
    + apply G.
Qed.

Lemma X11_paused_only_while_listening_witness :
  isListening
    (speech (App.run (App.mount true None None)
               [ (Scenario.clock1, ClickStartStop);
                 (Scenario.clock1, ClickPauseResume) ])) = true.
Proof.
  apply X11_paused_only_while_listening; [|reflexivity].
  eexists true, None, None, _. reflexivity.
Defined.

(** X12.  Driven through [App], while the hook is listening the
    language of the engine is the language selected in the list: the
    selection is handed over at the start and cannot change before the
    stop. *)
Theorem X12_engine_listens_in_selected_language :
  forall a : App.State,
    App.reachable a ->
    isListening (speech a) = true ->
    engineLang (speech a) =
    if isSupported (speech a) then Some (selectedLang a) else None.
Proof.
  apply (app_reachable_invariant
           (fun a => isListening (speech a) = true ->
                     engineLang (speech a) =
                     if isSupported (speech a) then Some (selectedLang a)
                     else None)).
  - intros supported saved auto. discriminate.
  - intros a [clk e] IH.
    rewrite !step_speech, (proj1 (step_others a clk e)).
    destruct (handle_selectedLang e a) as [Hsel | (Hl & Hs)].
    + rewrite Hsel.
      destruct (handle_speech e a) as [-> | (h & -> & G)]; [exact IH|].
      rewrite isListening_refresh, engineLang_refresh, isSupported_refresh.
      intros L. rewrite step_isSupported, step_engineLang.
      destruct (proj1 (step_flags (speech a) h) L) as [La | (l & ->)].
      * destruct h; try exact (IH La).
        destruct G as (G & _). congruence.
      * destruct G as (_ & ->). unfold isSupported.
        now destruct (recognitionRef (speech a)).
    + rewrite Hs, isListening_refresh, Hl. discriminate.
Qed.

Lemma X12_engine_listens_in_selected_language_witness :
  engineLang
    (speech (App.run (App.mount true None None)
               [ (Scenario.clock1, SelectLang Scenario.en_US);
                 (Scenario.clock1, ClickStartStop);
                 (Scenario.clock1, SelectLang Scenario.test) ])) =
  Some Scenario.en_US.
Proof.
  apply (X12_engine_listens_in_selected_language
           (App.run (App.mount true None None)
              [ (Scenario.clock1, SelectLang Scenario.en_US);
                (Scenario.clock1, ClickStartStop);
                (Scenario.clock1, SelectLang Scenario.test) ]));
    [|reflexivity].
  eexists true, None, None, _. reflexivity.
Defined.

Section AppOperations.

Lemma saves_nil (l : bool) (f : jsstring) :
  saves l f [] = negb l && truthy (trim f).
Proof.
  unfold saves. cbn [isAlreadySaved existsb negb]. rewrite andb_true_r.
  destruct l, f as [|c r]; reflexivity.
Qed.

(** A handler that installs a new history array makes the effect run. *)
Lemma deps_bumped (a b : App.State) :
  atRest a -> effectDeps b = effectDeps a ->
  historyRef b = S (historyRef a) ->
  Deps_eqb (effectDeps b) (deps b) = false.
Proof.
  unfold atRest, deps. intros Ra Hd Hr.
  destruct (Deps_eqb (effectDeps b) _) eqn:E; [|reflexivity].
  apply Deps_eqb_eq in E. rewrite Hd, Ra in E.
  injection E as _ _ E. lia.
Qed.

Lemma deps_listening_changed (a b : App.State) :
  atRest a -> effectDeps b = effectDeps a ->
  isListening (speech b) = negb (isListening (speech a)) ->
  Deps_eqb (effectDeps b) (deps b) = false.
Proof.
  unfold atRest, deps. intros Ra Hd Hl.
  destruct (Deps_eqb (effectDeps b) _) eqn:E; [|reflexivity].
  apply Deps_eqb_eq in E. rewrite Hd, Ra in E.
  injection E as E _ _. rewrite Hl in E. now destruct (isListening (speech a)).
Qed.

Lemma filter_unknown_id (i : Z) (h : list Transcript) :
  (forall item, In item h -> id item <> i) ->
  filter (fun item => negb (Z.eqb (id item) i)) h = h.
Proof.
  induction h as [|x h IH]; intros H; [reflexivity|].
  simpl. destruct (Z.eqb (id x) i) eqn:E.
  - apply Z.eqb_eq in E. exfalso. apply (H x); [now left | exact E].
  - simpl. f_equal. apply IH. intros item Hi. apply H. now right.
Qed.

End AppOperations.

(** X13.  "Clear all" in a reachable state with the dialog open: the
    history and its stored copy are emptied, unless the hook is not
    listening and has a transcript whose trimmed text is not empty; then
    the effect saves that transcript again at once, and the history is
    that one new entry. *)
Theorem X13_clear_keeps_the_current_transcript :
  forall (clk : Clock) (a : App.State),
    App.reachable a ->
    isSupported (speech a) = true ->
    isHistoryVisible a = true ->
    let a' := App.step a (clk, ClearHistory) in
    let again :=
      negb (isListening (speech a))
      && truthy (trim (finalTranscript (speech a))) in
    history a' =
      (if again then [newTranscript clk (finalTranscript (speech a))]
       else []) /\
    transcriptHistory a' =
      (if again then Some [newTranscript clk (finalTranscript (speech a))]
       else None).
Proof.
  intros clk a Hr Hs Hv a' again. subst a' again.
  rewrite step_unfold. simpl. rewrite Hs, Hv.
  pose proof (commit_exceptDeps clk (handleClearHistory a)) as E.
  rewrite (deps_bumped a (handleClearHistory a)) in E
    by (try reflexivity; now apply reachable_atRest).
  apply exceptDeps_fields in E as (_ & _ & _ & Hh & _ & _ & Ht).
  rewrite Hh, Ht, historyEffect_history, historyEffect_stored.
  rewrite saveToHistory_cases. unfold_app_setters. rewrite saves_nil.
  destruct (negb (isListening (speech a))
            && truthy (trim (finalTranscript (speech a)))); now split.
Qed.

Lemma X13_clear_keeps_the_current_transcript_witness :
  history (App.step Scenario.recorded (Scenario.clock2, ClearHistory)) =
  [newTranscript Scenario.clock2 Scenario.test].
Proof.
  refine (proj1 (X13_clear_keeps_the_current_transcript
                   Scenario.clock2 Scenario.recorded _ eq_refl eq_refl)).
  eexists true, None, None, _. reflexivity.
Defined.

(** X14.  An edit of the document is kept as typed, but in a state that
    does not listen and has a transcript, deleting any history entry runs
    the effect again and the document is the transcript once more: the
    edit is lost. *)
Theorem X14_history_change_resets_the_document :
  forall (clk1 clk2 : Clock) (a : App.State) (v : jsstring) (i : Z),
    App.reachable a ->
    isSupported (speech a) = true ->
    isHistoryVisible a = true ->
    isListening (speech a) = false ->
    truthy (finalTranscript (speech a)) = true ->
    let edited := App.step a (clk1, EditFinalContent v) in
    finalContent edited = v /\
    finalContent (App.step edited (clk2, DeleteTranscript i)) =
      finalTranscript (speech a).
Proof.
  intros clk1 clk2 a v i Hr Hs Hv Hl Hf edited.
  pose proof (reachable_atRest a Hr) as Ra.
  assert (E : edited = setFinalContent v a).
  { subst edited. rewrite step_unfold. cbn [handle userAction]. rewrite Hs.
    rewrite commit_atRest_id by exact Ra.
    apply refreshed_fresh, (reachable_fresh a Hr). }
  rewrite E. split; [reflexivity|].
  rewrite step_unfold. cbn [handle userAction]. unfold_app_setters.
  rewrite Hs, Hv.
  pose proof (commit_exceptDeps clk2
                (handleDeleteTranscript i (setFinalContent v a))) as C.
  rewrite (deps_bumped a) in C by (try reflexivity; exact Ra).
  apply exceptDeps_fields in C as (_ & -> & _).
  rewrite historyEffect_finalContent. unfold_app_setters.
  now rewrite Hl, Hf.
Qed.

Lemma X14_history_change_resets_the_document_witness :
  finalContent
    (App.step
       (App.step Scenario.recorded (Scenario.clock2, EditFinalContent Scenario.hello))
       (Scenario.clock2, DeleteTranscript 0)) = Scenario.test.
Proof.
  refine (proj2 (X14_history_change_resets_the_document
                   Scenario.clock2 Scenario.clock2 Scenario.recorded
                   Scenario.hello 0 _ eq_refl eq_refl eq_refl eq_refl)).
  eexists true, None, None, _. reflexivity.
Defined.

(** X15.  No event alters an entry or brings in a foreign one: every
    entry of the history after an event was in the history before it, or
    is the entry the effect built at this event, with the clock of the
    event and the trimmed [finalTranscript] as content. *)
Theorem X15_entries_are_kept_or_new :
  forall (a : App.State) (clk : Clock) (e : App.Event) (t : Transcript),
    In t (history (App.step a (clk, e))) ->
    In t (history a) \/
    t = newTranscript clk (finalTranscript (speech (App.step a (clk, e)))).
Proof.
  intros a clk e t. rewrite step_unfold. simpl. rewrite commit_speech.
  pose proof (commit_exceptDeps clk (handle e a)) as E.
  destruct (Deps_eqb (effectDeps (handle e a)) (deps (handle e a)));
    apply exceptDeps_fields in E as (_ & _ & _ & -> & _).
  - intros H. left. now apply (handle_subset e a).
  - rewrite historyEffect_history, saveToHistory_cases.
    destruct (saves _ _ _).
    + intros [<- | H]; [now right | left; now apply (handle_subset e a)].
    + intros H. left. now apply (handle_subset e a).
Qed.

Lemma X15_entries_are_kept_or_new_witness :
  In (newTranscript Scenario.clock2 Scenario.test)
     (history Scenario.recorded) \/
  newTranscript Scenario.clock2 Scenario.test =
  newTranscript Scenario.clock2
    (finalTranscript
       (speech (App.step Scenario.recorded
                  (Scenario.clock2, DeleteTranscript Scenario.now1)))).
Proof.
  apply (X15_entries_are_kept_or_new Scenario.recorded Scenario.clock2
           (DeleteTranscript Scenario.now1)
           (newTranscript Scenario.clock2 Scenario.test)).
  vm_compute. left. reflexivity.
Defined.

(** X16.  Deleting an id that no entry has, in a reachable state with
    the dialog open, leaves the history as it is and writes that same
    list to [localStorage]. *)
Theorem X16_delete_of_unknown_id_keeps_history :
  forall (clk : Clock) (a : App.State) (i : Z),
    App.reachable a ->
    isSupported (speech a) = true ->
    isHistoryVisible a = true ->
    (forall item, In item (history a) -> id item <> i) ->
    history (App.step a (clk, DeleteTranscript i)) = history a /\
    transcriptHistory (App.step a (clk, DeleteTranscript i)) =
      Some (history a).
Proof.
  intros clk a i Hr Hs Hv Hid.
  rewrite step_unfold. simpl. rewrite Hs, Hv.
  pose proof (commit_exceptDeps clk (handleDeleteTranscript i a)) as E.
  rewrite (deps_bumped a) in E
    by (try reflexivity; now apply reachable_atRest).
  apply exceptDeps_fields in E as (_ & _ & _ & Hh & _ & _ & Ht).
  rewrite Hh, Ht, historyEffect_history, historyEffect_stored.
  rewrite saveToHistory_cases. unfold_app_setters.
  rewrite (filter_unknown_id i (history a) Hid), (reachable_saved a Hr).
  now split.
Qed.

Lemma X16_delete_of_unknown_id_keeps_history_witness :
  history (App.step Scenario.recorded (Scenario.clock2, DeleteTranscript 0)) =
  history Scenario.recorded.
Proof.
  refine (proj1 (X16_delete_of_unknown_id_keeps_history
                   Scenario.clock2 Scenario.recorded 0 _ eq_refl eq_refl _)).
  - eexists true, None, None, _. reflexivity.
  - assert (Hh : history Scenario.recorded =
                 [newTranscript Scenario.clock1 Scenario.test])
      by reflexivity.
    intros item Hin. rewrite Hh in Hin.
    destruct Hin as [<- | []]. discriminate.
Defined.

(** X17.  Stop, then the termination, from a reachable listening state
    with [finalTranscript] F and [liveTranscript] L: the effect runs at
    the stop with F and, when the termination changes [finalTranscript],
    again with the trimmed L; the history is what these two saves make of
    it, so one session can leave two entries.  When F and L have the same
    trimmed text only the save of the stop counts.  The document is the
    trimmed L when that is not empty, else F when F is not empty, else
    the document of before the stop. *)
Theorem X17_stop_then_termination_saves_twice :
  forall (clk1 clk2 : Clock) (a : App.State),
    App.reachable a ->
    isSupported (speech a) = true ->
    isListening (speech a) = true ->
    let F := finalTranscript (speech a) in
    let L := liveTranscript (speech a) in
    let a2 := App.step (App.step a (clk1, ClickStartStop)) (clk2, EngineEnd) in
    history a2 =
      saveToHistory clk2 false (trim L)
        (saveToHistory clk1 false F (history a)) /\
    (trim L = trim F -> history a2 = saveToHistory clk1 false F (history a)) /\
    isListening (speech a2) = false /\
    finalTranscript (speech a2) = trim L /\
    liveTranscript (speech a2) = trim L /\
    finalContent a2 =
      (if truthy (trim L) then trim L
       else if truthy F then F else finalContent a).
Proof.
  intros clk1 clk2 a Hr Hs Hl F L a2.
  pose proof (reachable_atRest a Hr) as Ra.
  set (a1 := App.step a (clk1, ClickStartStop)) in *.
  set (b1 := refreshed (setSpeech (stopListening (speech a)) a)).
  assert (E1 : a1 = commit clk1 b1).
  { subst a1 b1. unfold App.step. cbn [fst snd handle userAction].
    rewrite Hs. unfold handleStartStop. now rewrite Hl. }
  pose proof (commit_exceptDeps clk1 b1) as C1.
  rewrite (deps_listening_changed a b1 Ra) in C1
    by (try reflexivity; subst b1; simpl; now rewrite Hl).
  rewrite <- E1 in C1.
  apply exceptDeps_fields in C1 as (S1 & F1 & _ & H1 & _).
  rewrite historyEffect_speech in S1.
  rewrite historyEffect_history in H1.
  rewrite historyEffect_finalContent in F1.
  subst b1. unfold_app_setters.
  change (isListening (refresh (stopListening (speech a)))) with false in *.
  change (finalTranscript (refresh (stopListening (speech a)))) with F in *.
  simpl negb in F1. rewrite andb_true_l in F1.
  assert (R1 : atRest a1) by (rewrite E1; apply commit_atRest).
  set (b2 := refreshed (setSpeech (handleEnd (speech a1)) a1)).
  assert (E2 : a2 = commit clk2 b2) by reflexivity.
  assert (Hend : handleEnd (speech a1) =
                 setLiveTranscript (trim L)
                   (setFinalTranscript (trim L)
                      (setSpeakingTimeout false
                         (setIsSpeaking false (speech a1))))).
  { rewrite S1. apply (handleEnd_finalize (refresh (stopListening (speech a)))).
    reflexivity. }
  assert (S2 : speech a2 = refresh (handleEnd (speech a1)))
    by (rewrite E2; apply commit_speech).
  assert (L2 : isListening (handleEnd (speech a1)) = false)
    by (rewrite Hend, S1; reflexivity).
  assert (T2 : finalTranscript (handleEnd (speech a1)) = trim L)
    by (rewrite Hend; reflexivity).
  assert (Hist : history a2 =
                 saveToHistory clk2 false (trim L)
                   (saveToHistory clk1 false F (history a)) /\
                 finalContent a2 =
                 (if truthy (trim L) then trim L
                  else if truthy F then F else finalContent a)).
  { pose proof (commit_exceptDeps clk2 b2) as C2. rewrite <- E2 in C2.
    destruct (Deps_eqb (effectDeps b2) (deps b2)) eqn:D;
      apply exceptDeps_fields in C2 as (_ & F2 & _ & H2 & _).
    - apply Deps_eqb_eq in D. subst b2. unfold deps in D.
      unfold_app_setters. unfold atRest, deps in R1. rewrite R1 in D.
      rewrite finalTranscript_refresh in D.
      injection D as _ D. rewrite T2, S1 in D.
      change (finalTranscript (refresh (stopListening (speech a))))
        with F in D.
      assert (D' : trim L = F) by congruence.
      rewrite H2, F2, H1, F1. split.
      + symmetry. apply save_twice. now rewrite D'.
      + rewrite D'. now destruct (truthy F).
    - rewrite H2, F2, historyEffect_history, historyEffect_finalContent.
      subst b2. unfold_app_setters.
      rewrite isListening_refresh, finalTranscript_refresh, L2, T2, H1, F1.
      split; [reflexivity|]. simpl. now destruct (truthy (trim L)). }
  destruct Hist as (Hh & Hc).
  split; [exact Hh|]. split.
  - intros ET. rewrite Hh. apply save_twice. now rewrite trim_idem.
  - rewrite S2, Hend. repeat split; try exact Hc. now rewrite S1.
Qed.

Lemma X17_stop_then_termination_saves_twice_witness :
  history
    (App.step (App.step dictating (Scenario.clock1, ClickStartStop))
       (Scenario.clock2, EngineEnd)) =
  saveToHistory Scenario.clock2 false
    (trim (liveTranscript (speech dictating)))
    (saveToHistory Scenario.clock1 false
       (finalTranscript (speech dictating)) (history dictating)).
Proof.
  refine (proj1 (X17_stop_then_termination_saves_twice
                   Scenario.clock1 Scenario.clock2 dictating
                   _ eq_refl eq_refl)).
  eexists true, None, None, _. reflexivity.
Defined.

(** X18.  Viewing an entry, in a reachable state with the dialog open,
    only reads the history: the entry's content becomes the document and
    the dialog closes; the history, its stored copy and the hook are left
    as they are, and the effect does not run. *)
Theorem X18_view_only_reads_the_history :
  forall (clk : Clock) (a : App.State) (item : Transcript),
    App.reachable a ->
    isSupported (speech a) = true ->
    isHistoryVisible a = true ->
    let a' := App.step a (clk, ViewHistoryItem item) in
    finalContent a' = content item /\
    isHistoryVisible a' = false /\
    history a' = history a /\
    transcriptHistory a' = transcriptHistory a /\
    speech a' = speech a.
Proof.
  intros clk a item Hr Hs Hv a'. subst a'.
  rewrite step_unfold. cbn [handle userAction]. rewrite Hs, Hv.
  rewrite commit_atRest_id by (apply (reachable_atRest a Hr)).
  rewrite refreshed_fresh by (apply (reachable_fresh a Hr)).
  now repeat split.
Qed.

Lemma X18_view_only_reads_the_history_witness :
  finalContent
    (App.step Scenario.recorded
       (Scenario.clock2,
        ViewHistoryItem (newTranscript Scenario.clock2 Scenario.hello))) =
  Scenario.hello.
Proof.
  refine (proj1 (X18_view_only_reads_the_history Scenario.clock2
                   Scenario.recorded
                   (newTranscript Scenario.clock2 Scenario.hello)
                   _ eq_refl eq_refl)).
  eexists true, None, None, _. reflexivity.
Defined.

(** X19.  The start button, in a reachable state that does not listen:
    the document and both transcripts are emptied, the error is cleared,
    the hook listens, not paused, with [stopReason] [auto]; the engine is
    the one of before with the selected language as its language and one
    more [start] at the end of the calls it received; the history, its
    stored copy, the selected language and the dialog are not touched. *)
Theorem X19_start_clears_document_not_history :
  forall (clk : Clock) (a : App.State),
    App.reachable a ->
    isSupported (speech a) = true ->
    isListening (speech a) = false ->
    let a' := App.step a (clk, ClickStartStop) in
    isListening (speech a') = true /\
    isPaused (speech a') = false /\
    stopReasonRef (speech a') = auto /\
    finalContent a' = [] /\
    finalTranscript (speech a') = [] /\
    liveTranscript (speech a') = [] /\
    error (speech a') = None /\
    (exists r,
        recognitionRef (speech a) = Some r /\
        recognitionRef (speech a') =
          Some {| continuous := continuous r;
                  interimResults := interimResults r;
                  lang := selectedLang a;
                  calls := calls r ++ [CallStart] |}) /\
    engineLang (speech a') = Some (selectedLang a) /\
    history a' = history a /\
    transcriptHistory a' = transcriptHistory a /\
    selectedLang a' = selectedLang a /\
    isHistoryVisible a' = isHistoryVisible a.
Proof.
  intros clk a Hr Hs Hl a'. subst a'.
  rewrite step_unfold. cbn [handle userAction]. rewrite Hs.
  unfold handleStartStop. rewrite Hl.
  set (b := setSpeech (startListening (selectedLang a) (speech a))
              (setFinalContent [] a)).
  pose proof (commit_exceptDeps clk b) as C.
  rewrite (deps_listening_changed a b (reachable_atRest a Hr)) in C
    by (try reflexivity; subst b; simpl; now rewrite Hl).
  apply exceptDeps_fields in C as (S & F & Hsel & H & _ & Hvis & T).
  rewrite historyEffect_speech in S. rewrite historyEffect_history in H.
  rewrite historyEffect_finalContent in F. rewrite historyEffect_stored in T.
  rewrite (proj1 (historyEffect_others clk b)) in Hsel.
  rewrite (proj2 (historyEffect_others clk b)) in Hvis.
  unfold_app_setters. rewrite S, F, H, T, Hsel, Hvis.
  subst b. unfold_app_setters.
  unfold engineLang, isSupported in *. unfold startListening. unfold_setters.
  destruct (recognitionRef (speech a)) as [r|]; [|discriminate].
  repeat split. exists r. now split.
Qed.

Lemma X19_start_clears_document_not_history_witness :
  history (App.step Scenario.recorded (Scenario.clock2, ClickStartStop)) =
    history Scenario.recorded /\
  option_map calls
    (recognitionRef
       (speech (App.step Scenario.recorded
                  (Scenario.clock2, ClickStartStop)))) =
    Some [CallStart; CallStop; CallStart].
Proof.
  assert (Hr : App.reachable Scenario.recorded)
    by (eexists true, None, None, _; reflexivity).
  destruct (X19_start_clears_document_not_history Scenario.clock2
              Scenario.recorded Hr eq_refl eq_refl)
    as (_ & _ & _ & _ & _ & _ & _ & (r & Er & Er') & _ & H & _).
  split; [exact H|]. rewrite Er'. cbn [option_map calls].
  assert (E : recognitionRef (speech Scenario.recorded) =
              Some {| continuous := true; interimResults := true;
                      lang := Literal.pt_BR;
                      calls := [CallStart; CallStop] |}) by reflexivity.
  rewrite E in Er. injection Er as <-. reflexivity.
Defined.

(* ================================================================== *)
(** ** The auto-save of the document *)
(* ================================================================== *)

Section AutosaveFacts.

Lemma autosaveSettled_step (p : Autosave.State) (e : Autosave.Event) :
  autosaveSettled p -> autosaveSettled (Autosave.step p e).
Proof.
  unfold autosaveSettled. intros H. destruct e as [v|]; simpl.
  - unfold Autosave.render.
    destruct (JsString.eqb v (Autosave.finalContent p)); [exact H|].
    reflexivity.
  - unfold Autosave.timeout.
    destruct (Autosave.handler p) as [v|] eqn:Hh; simpl.
    + now rewrite H.
    + rewrite Hh. exact H.
Qed.

Lemma autosaveSettled_run (parseThrows : bool) (stored : option jsstring)
    (es : list Autosave.Event) :
  autosaveSettled (Autosave.run (Autosave.mount parseThrows stored) es).
Proof.
  unfold Autosave.run.
  assert (H : autosaveSettled (Autosave.mount parseThrows stored))
    by reflexivity.
  revert H. generalize (Autosave.mount parseThrows stored).
  induction es as [|e es IH]; intros p H; [exact H|].
  simpl. apply IH, autosaveSettled_step, H.
Qed.

Lemma persisted_loads_back (v : jsstring) :
  Autosave.finalContent (Autosave.mount false (persisted v)) = v.
Proof. destruct v; reflexivity. Qed.

End AutosaveFacts.

(** X20.  However the document changed since the mount, once the
    timeout has expired [localStorage] holds the document as it is now,
    or no item when the document is empty: changes made while a timeout
    was pending are never written.  The expiry does not touch the
    document and leaves no timeout pending.  This holds whether or not
    the load at the mount failed. *)
Theorem X20_autosave_stores_the_latest_document :
  forall (parseThrows : bool) (stored : option jsstring)
         (es : list Autosave.Event),
    let p := Autosave.run (Autosave.mount parseThrows stored) es in
    Autosave.autoSavedTranscript (Autosave.timeout p) =
      persisted (Autosave.finalContent p) /\
    Autosave.finalContent (Autosave.timeout p) = Autosave.finalContent p /\
    Autosave.handler (Autosave.timeout p) = None.
Proof.
  intros parseThrows stored es p.
  pose proof (autosaveSettled_run parseThrows stored es) as H. fold p in H.
  unfold autosaveSettled in H. unfold Autosave.timeout.
  destruct (Autosave.handler p) as [v|] eqn:Hh; simpl.
  - now rewrite H.
  - now rewrite Hh.
Qed.

(** X21.  What the auto-save stored is what the next mount loads when
    the load does not fail: the document found after a new mount from the
    store left by an expired timeout is the document of before.  When
    [JSON.parse] of the stored history throws at that mount, the stored
    document is not read: the document is empty, and the first expiry of
    the timeout removes the stored document. *)
Theorem X21_autosave_round_trip :
  forall (parseThrows : bool) (stored : option jsstring)
         (es : list Autosave.Event),
    let p := Autosave.run (Autosave.mount parseThrows stored) es in
    let kept := Autosave.autoSavedTranscript (Autosave.timeout p) in
    Autosave.finalContent (Autosave.mount false kept) =
      Autosave.finalContent p /\
    Autosave.autoSavedTranscript (Autosave.mount false kept) = kept /\
    Autosave.finalContent (Autosave.mount true kept) = [] /\
    Autosave.autoSavedTranscript (Autosave.mount true kept) = kept /\
    Autosave.autoSavedTranscript
      (Autosave.timeout (Autosave.mount true kept)) = None.
Proof.
  intros parseThrows stored es p kept.
  split; [|now repeat split].
  subst kept.
  pose proof (autosaveSettled_run parseThrows stored es) as H. fold p in H.
  unfold autosaveSettled in H. unfold Autosave.timeout.
  destruct (Autosave.handler p) as [v|] eqn:Hh; simpl Autosave.autoSavedTranscript.
  - fold (persisted v). rewrite <- H. apply persisted_loads_back.
  - rewrite H. apply persisted_loads_back.
Qed.


